(** * Language detection and lexical rule catalog of [input/lang.go]

    A shallow embedding of the Go package [input] (file [lang.go]): the static
    tables [langs], [cStyle] and [langExts], and the functions [Langs],
    [DetectDirLang], [getLangByExt] and [langIsSupported], followed by the
    properties of the specification proved (or refuted) on them.

    Go values are modelled as follows.
    - A Go [string] is a sequence of bytes: Rocq's [string].
    - A Go [map[string]V] is a [gmap string V].  A [for k, v := range m]
      statement visits the entries of [m] in an order chosen by the Go
      runtime; the order is an explicit list, constrained only to be a
      permutation of the entries of the map.
    - A Go [int] is a 64-bit two's complement integer (the size it has on
      a 64-bit target): a [Z] wrapped by [wrapInt] after each arithmetic
      operation.
    - A pair of results [(string, error)] is a pair whose second component
      is [None] for Go's [nil]. *)

From Stdlib Require Import ZArith NArith Ascii String Lia.
From stdpp Require Import base option list sorting fin_maps gmap strings.

Local Open Scope Z_scope.

(** ** The parts of Go's standard library that [lang.go] calls *)

Module Go.

(** [utf8.RuneSelf]: bytes below it are single-byte (ASCII) runes. *)
Definition RuneSelf : N := 128.

Definition isASCIIByte (c : ascii) : bool := (N_of_ascii c <? RuneSelf)%N.

(** ['A' <= c && c <= 'Z'] *)
Definition isUpperByte (c : ascii) : bool :=
  ((65 <=? N_of_ascii c) && (N_of_ascii c <=? 90))%N.

(** [c += 'a' - 'A'] on an upper-case byte, other bytes unchanged. *)
Definition lowerByte (c : ascii) : ascii :=
  if isUpperByte c then ascii_of_N (N_of_ascii c + 32) else c.

Fixpoint mapBytes (f : ascii -> ascii) (s : string) : string :=
  match s with
  | EmptyString => EmptyString
  | String c s' => String (f c) (mapBytes f s')
  end.

Fixpoint allBytes (p : ascii -> bool) (s : string) : bool :=
  match s with
  | EmptyString => true
  | String c s' => p c && allBytes p s'
  end.

Fixpoint anyByte (p : ascii -> bool) (s : string) : bool :=
  match s with
  | EmptyString => false
  | String c s' => p c || anyByte p s'
  end.

Definition isASCII (s : string) : bool := allBytes isASCIIByte s.
Definition hasUpper (s : string) : bool := anyByte isUpperByte s.

(** The Unicode case tables behind [strings.Map(unicode.ToLower, s)] are not
    part of the program; the lower-casing of a string that holds a byte
    outside ASCII is an interface of the environment. *)
Class Unicode := { unicodeToLower : string -> string }.

(** [strings.ToLower]: an ASCII-only string is lower-cased byte by byte (and
    returned as it is when it has no upper-case byte); any other string goes
    through the Unicode tables. *)
Definition ToLower `{Unicode} (s : string) : string :=
  if isASCII s then
    if hasUpper s then mapBytes lowerByte s else s
  else unicodeToLower s.

(** [os.IsPathSeparator] of the Unix build, where [os.PathSeparator] is ['/']. *)
Definition IsPathSeparator (c : ascii) : bool := Ascii.eqb c "/".

(** [path[i:]] *)
Definition sliceFrom (i : nat) (path : string) : string :=
  String.substring i (String.length path - i) path.

(** The loop of [filepath.Ext],
    [for i := len(path) - 1; i >= 0 && !os.IsPathSeparator(path[i]); i--],
    entered with [n = i + 1]. *)
Fixpoint ExtLoop (path : string) (n : nat) : string :=
  match n with
  | O => EmptyString
  | S i =>
      match String.get i path with
      | None => EmptyString
      | Some c =>
          if IsPathSeparator c then EmptyString
          else if Ascii.eqb c "." then sliceFrom i path
          else ExtLoop path i
      end
  end.

(** [filepath.Ext]: the suffix of [path] from the last dot of its last
    element, empty when that element has no dot. *)
Definition Ext (path : string) : string := ExtLoop path (String.length path).

(** Go's [int] (64 bits). *)
Definition intSize : Z := 64.
Definition MaxInt : Z := 2 ^ (intSize - 1) - 1.
Definition MinInt : Z := - 2 ^ (intSize - 1).

Definition wrapInt (z : Z) : Z :=
  (z - MinInt) mod 2 ^ intSize + MinInt.

(** The [error] values that reach [DetectDirLang]: those made by
    [errors.New], and those of the operating system ([*os.PathError]). *)
Inductive error : Type :=
  | errorString (s : string)
  | PathError (Op Path Err : string).

Definition errors_New (text : string) : error := errorString text.

(** [os.FileInfo], of which only [Name()] and [IsDir()] are called. *)
Record FileInfo : Type := mkFileInfo { Name : string; IsDir : bool }.

(** [ioutil.ReadDir]: the listing and the error, as Go returns them. *)
Class FileSystem := { ReadDir : string -> list FileInfo * option error }.

(** A slice never holds more than [MaxInt] elements. *)
Definition sliceLen {A} (l : list A) : Prop := Z.of_nat (length l) <= MaxInt.

(** An order in which a [range] statement may visit the entries of a map. *)
Definition rangeOf {V} (m : gmap string V) (kvs : list (string * V)) : Prop :=
  kvs ≡ₚ map_to_list m.

End Go.

Import Go.

(** ** The package [input]: [lang.go] *)

Module Input.

(** Modelled from the spec: the type of [block.Type] and its three constants
    [blockTypeString], [blockTypeSComment] and [blockTypeMComment] are declared
    outside [lang.go]; the spec gives the closed set of kinds [String],
    [SingleLineComment] and [MultiLineComment]. *)
Inductive blockType : Type :=
  | blockTypeString
  | blockTypeSComment
  | blockTypeMComment.

(** Modelled from the spec: the struct [block] is declared outside [lang.go];
    the spec gives a Block Rule the attributes kind, begin, end and escape,
    and [lang.go] names the fields [Type], [Begin], [End] and [Escape].  A
    field left out of a composite literal is Go's zero value, the empty
    string. *)
Record block : Type := mkBlock {
  Type_ : blockType;
  Begin : string;
  End_ : string;
  Escape : string
}.

Local Open Scope string_scope.

Definition dquote : string := String "034" EmptyString.
Definition squote : string := String "039" EmptyString.
Definition backtick : string := String "096" EmptyString.
Definition backslash : string := String "092" EmptyString.
Definition newline : string := String "010" EmptyString.
Definition none : string := EmptyString.

(** [var cStyle] *)
Definition cStyle : list block := [
  mkBlock blockTypeString dquote dquote backslash;
  mkBlock blockTypeSComment "//" none none;
  mkBlock blockTypeMComment "/*" "*/" none
].

(** [var langs]; the entries that are [cStyle] in the source are that very
    value here. *)
Definition langs : gmap string (list block) := list_to_map [
  ("c#", cStyle);
  ("c++", cStyle);
  ("go", [
    mkBlock blockTypeString dquote dquote backslash;
    mkBlock blockTypeString backtick backtick none;
    mkBlock blockTypeSComment "//" none none;
    mkBlock blockTypeMComment "/*" "*/" none ]);
  ("java", cStyle);
  ("javascript", [
    mkBlock blockTypeString dquote dquote backslash;
    mkBlock blockTypeString squote squote backslash;
    mkBlock blockTypeSComment "//" none none;
    mkBlock blockTypeMComment "/*" "*/" none;
    mkBlock blockTypeString "/" "/" backslash ]);
  ("perl", [
    mkBlock blockTypeString dquote dquote backslash;
    mkBlock blockTypeString squote squote backslash;
    mkBlock blockTypeSComment "#" none none;
    mkBlock blockTypeMComment (newline ++ "=pod" ++ newline)
                              (newline ++ "=cut" ++ newline) none ]);
  ("python", [
    mkBlock blockTypeString dquote dquote backslash;
    mkBlock blockTypeSComment "#" none none ]);
  ("php", [
    mkBlock blockTypeString dquote dquote backslash;
    mkBlock blockTypeString squote squote backslash;
    mkBlock blockTypeSComment "//" none none;
    mkBlock blockTypeMComment "/*" "*/" none ]);
  ("ruby", [
    mkBlock blockTypeString dquote dquote backslash;
    mkBlock blockTypeString squote squote backslash;
    mkBlock blockTypeSComment "#" none none;
    mkBlock blockTypeMComment (newline ++ "=begin" ++ newline)
                              (newline ++ "=end" ++ newline) none ]);
  ("rust", cStyle);
  ("swift", cStyle)
].

(** [var langExts] *)
Definition langExts : gmap string (list string) := list_to_map [
  ("c#", [".cs"]);
  ("c++", [".h"; ".c"; ".cpp"; ".cxx"; "hpp"]);
  ("go", [".go"]);
  ("java", [".java"]);
  ("javascript", [".js"]);
  ("perl", [".perl"; ".prl"; ".pl"]);
  ("php", [".php"]);
  ("python", [".py"]);
  ("ruby", [".rb"]);
  ("rust", [".rs"]);
  ("swift", [".swift"])
].

(** The orders in which the Go runtime walks the maps during a call of
    [DetectDirLang]: [rangeLangExts i] for the [range langExts] of the call
    of [getLangByExt] on the [i]-th entry of the listing, [rangeLangsMap m]
    for the [range langsMap] when the tally is [m]. *)
Class MapOrder := {
  rangeLangExts : nat -> list (string * list string);
  rangeLangsMap : gmap string Z -> list (string * Z)
}.

(** Every order is an enumeration of the map it walks. *)
Class MapOrderOK `{MapOrder} : Prop := {
  rangeLangExts_ok : forall i, rangeOf langExts (rangeLangExts i);
  rangeLangsMap_ok : forall m, rangeOf m (rangeLangsMap m)
}.

(** [func Langs() []string], walking [langs] in the order [order]. *)
Definition Langs (order : list (string * list block)) : list string :=
  foldl (fun ret kv => ret ++ [kv.1])%list [] order.

(** The inner loop of [getLangByExt], [for _, elem := range exts]:
    [Some lang] when it returns [lang], [None] when it falls through. *)
Fixpoint rangeExts (lang : string) (exts : list string) (ext : string)
  : option string :=
  match exts with
  | [] => None
  | elem :: exts' =>
      if String.eqb elem ext then Some lang else rangeExts lang exts' ext
  end.

(** The outer loop of [getLangByExt], [for lang, exts := range langExts],
    and the final [return ""]. *)
Fixpoint rangeLangExtsLoop (order : list (string * list string)) (ext : string)
  : string :=
  match order with
  | [] => EmptyString
  | (lang, exts) :: order' =>
      match rangeExts lang exts ext with
      | Some l => l
      | None => rangeLangExtsLoop order' ext
      end
  end.

(** [func getLangByExt(ext string) string], walking [langExts] in the order
    [order]. *)
Definition getLangByExt `{Unicode} (order : list (string * list string))
  (ext : string) : string :=
  let ext := ToLower ext in
  rangeLangExtsLoop order ext.

(** [func langIsSupported(lang string) bool] *)
Definition langIsSupported (lang : string) : bool :=
  match langs !! lang with
  | Some _ => true
  | None => false
  end.

(** [langsMap[lang]++] *)
Definition incr (lang : string) (langsMap : gmap string Z) : gmap string Z :=
  <[lang := wrapInt (default 0%Z (langsMap !! lang) + 1)]> langsMap.

(** The first loop of [DetectDirLang], [for _, f := range fs], from the
    entry of index [i] on. *)
Fixpoint rangeFiles `{Unicode} `{MapOrder} (i : nat) (fs : list FileInfo)
  (langsMap : gmap string Z) : gmap string Z :=
  match fs with
  | [] => langsMap
  | f :: fs' =>
      if IsDir f then rangeFiles (S i) fs' langsMap
      else
        let ext := ToLower (Ext (Name f)) in
        let lang := getLangByExt (rangeLangExts i) ext in
        if (0 <? String.length lang)%nat
        then rangeFiles (S i) fs' (incr lang langsMap)
        else rangeFiles (S i) fs' langsMap
  end.

(** The body of the second loop, [if v >= cnt { lang = k; cnt = v }], on
    the state [(lang, cnt)]. *)
Definition pick (best : string * Z) (kv : string * Z) : string * Z :=
  if (kv.2 >=? best.2)%Z then (kv.1, kv.2) else best.

(** The second loop of [DetectDirLang], [for k, v := range langsMap], from
    [lang := ""] and [cnt := 0]. *)
Definition rangeTally (order : list (string * Z)) : string * Z :=
  foldl pick (EmptyString, 0%Z) order.

(** The text of both [errors.New] calls of [DetectDirLang]. *)
Definition noLangMessage : string := "该目录下没有支持的语言文件".

(** [func DetectDirLang(dir string) (string, error)] *)
Definition DetectDirLang `{FileSystem} `{Unicode} `{MapOrder} (dir : string)
  : string * option error :=
  let '(fs, err) := ReadDir dir in
  match err with
  | Some e => (EmptyString, Some e)
  | None =>
      let langsMap := rangeFiles 0 fs ∅ in
      if (size langsMap =? 0)%nat then
        (EmptyString, Some (errors_New noLangMessage))
      else
        let '(lang, cnt) := rangeTally (rangeLangsMap langsMap) in
        if (0 <? String.length lang)%nat then (lang, None)
        else (EmptyString, Some (errors_New noLangMessage))
  end.

End Input.

Import Input.

(** ** Specification-level notions *)

Module Spec.

(** An extension as the table writes all but one of them: a dot, then bytes
    that are neither a dot nor a path separator. *)
Definition plainByte (c : ascii) : bool :=
  negb (IsPathSeparator c) && negb (Ascii.eqb c ".").

Definition dotted (ext : string) : bool :=
  match ext with
  | String "." rest => allBytes plainByte rest
  | _ => false
  end.

(** The language a directory entry is looked up to, the table being walked
    in the order of [map_to_list]. *)
Definition langOf `{Unicode} (f : FileInfo) : string :=
  getLangByExt (map_to_list langExts) (ToLower (Ext (Name f))).

(** The entries that [DetectDirLang] tallies. *)
Definition counted `{Unicode} (f : FileInfo) : bool :=
  negb (IsDir f) && (0 <? String.length (langOf f))%nat.

(** The number of entries of a listing tallied for [lang]. *)
Definition votes `{Unicode} (lang : string) (fs : list FileInfo) : nat :=
  length (filter (fun f => counted f = true /\ langOf f = lang) fs).

(** A regular file. *)
Definition file (name : string) : FileInfo := mkFileInfo name false.

(** Lower-casing a lower-cased string changes nothing. *)
Definition lowerIdempotent `{Unicode} : Prop :=
  forall s, ToLower (ToLower s) = ToLower s.

(** The entries that [DetectDirLang] passes over. *)
Definition skipped `{Unicode} (f : FileInfo) : Prop :=
  IsDir f = true \/ langOf f = EmptyString.

(** A dot first and the bytes of ["hpp"] last. *)
Definition dotHpp (s : string) : bool :=
  match s with
  | String "." _ => String.eqb (sliceFrom (String.length s - 3) s) "hpp"
  | _ => false
  end.

(** No extension is listed for two languages. *)
Definition disjointExts (kvs : list (string * list string)) : Prop :=
  forall l1 e1 l2 e2 x,
    (l1, e1) ∈ kvs -> (l2, e2) ∈ kvs -> x ∈ e1 -> x ∈ e2 -> l1 = l2.

(** A name without a dot. *)
Definition noDot (name : string) : bool :=
  allBytes (fun c => negb (Ascii.eqb c ".")) name.

(** The shape of a rule of the catalog: an opening delimiter that is not
    empty; for a string, a closing delimiter equal to the opening one; for
    a single-line comment, no closing delimiter and no escape; for a
    multi-line comment, a closing delimiter and no escape. *)
Definition ruleShape (b : block) : bool :=
  negb (String.eqb (Begin b) EmptyString) &&
  match Type_ b with
  | blockTypeString => String.eqb (End_ b) (Begin b)
  | blockTypeSComment =>
      String.eqb (End_ b) EmptyString && String.eqb (Escape b) EmptyString
  | blockTypeMComment =>
      negb (String.eqb (End_ b) EmptyString) && String.eqb (Escape b) EmptyString
  end.

(** No rule opens with a prefix of the opening delimiter of a later rule:
    trying the rules in order, the first whose opening delimiter matches is
    never one that hides a longer delimiter further down. *)
Fixpoint shadowFree (rules : list block) : bool :=
  match rules with
  | [] => true
  | b :: rest =>
      forallb (fun b' => negb (String.prefix (Begin b) (Begin b'))) rest
      && shadowFree rest
  end.

(** A runtime that walks [langsMap] with the entry of [lang] last. *)
Definition lastOrder (lang : string) : MapOrder := {|
  rangeLangExts := fun _ => map_to_list langExts;
  rangeLangsMap := fun m =>
    match m !! lang with
    | Some v => map_to_list (delete lang m) ++ [(lang, v)]
    | None => map_to_list m
    end
|}.

End Spec.

Import Spec.

(** ** A concrete environment *)

Module Demo.

(** Lower-casing for strings whose runes outside ASCII have no case (the
    ideographs of a file name, say): the ASCII letters are lower-cased and
    every other byte stays. *)
Definition caseless : Unicode := {| unicodeToLower := mapBytes lowerByte |}.

(** A runtime that walks every map in the order of [map_to_list]. *)
Definition listOrder : MapOrder := {|
  rangeLangExts := fun _ => map_to_list langExts;
  rangeLangsMap := map_to_list
|}.

(** A runtime that walks every map in the opposite order. *)
Definition reverseOrder : MapOrder := {|
  rangeLangExts := fun _ => reverse (map_to_list langExts);
  rangeLangsMap := fun m => reverse (map_to_list m)
|}.

Definition project : list FileInfo := [
  file "block.go"; file "gen.py"; file "lang.go"; file "main.go";
  file "notes.xyz"; file "setup.py" ].

Definition docs : list FileInfo := [
  mkFileInfo "img" true; file "LICENSE"; file "notes.xyz" ].

(** A disk with five directories; any other path cannot be opened. *)
Definition disk : FileSystem := {|
  ReadDir dir :=
    if String.eqb dir "project" then (project, None)
    else if String.eqb dir "docs" then (docs, None)
    else if String.eqb dir "include" then ([file "vector.hpp"], None)
    else if String.eqb dir "scripts" then ([file "run.pl"], None)
    else if String.eqb dir "mixed" then ([file "a.go"; file "b.py"], None)
    else ([], Some (PathError "open" dir "no such file or directory"))
|}.

(** A second disk: a file with an upper-case extension, and a directory
    whose entries have no dot in their names. *)
Definition attic : FileSystem := {|
  ReadDir dir :=
    if String.eqb dir "upper" then ([file "MAIN.GO"], None)
    else if String.eqb dir "plain"
    then ([mkFileInfo "img" true; file "LICENSE"; file "Makefile"], None)
    else ([], Some (PathError "open" dir "no such file or directory"))
|}.

End Demo.

Import Demo.

(** ** Strings *)

Section Strings.

Lemma length_append (s t : string) :
  String.length (s +:+ t) = (String.length s + String.length t)%nat.
Proof. induction s as [|c s IH]; simpl; [done | by rewrite IH]. Qed.

Lemma get_append_r (s t : string) (j : nat) :
  String.get (String.length s + j) (s +:+ t) = String.get j t.
Proof. induction s as [|c s IH]; simpl; done. Qed.

Lemma substring_all (t : string) : String.substring 0 (String.length t) t = t.
Proof. induction t as [|c t IH]; simpl; [done | by rewrite IH]. Qed.

Lemma sliceFrom_append (s t : string) : sliceFrom (String.length s) (s +:+ t) = t.
Proof.
  unfold sliceFrom. rewrite length_append.
  replace (String.length s + String.length t - String.length s)%nat
    with (String.length t) by lia.
  induction s as [|c s IH]; simpl; [apply substring_all | exact IH].
Qed.

Lemma allBytes_get (p : ascii -> bool) (s : string) (j : nat) (c : ascii) :
  allBytes p s = true -> String.get j s = Some c -> p c = true.
Proof.
  revert j. induction s as [|d s IH]; intros j Hall Hget; simpl in *; [done|].
  apply andb_true_iff in Hall as [Hd Hs].
  destruct j as [|j]; [by simplify_eq | by eapply IH].
Qed.

Lemma get_lt (s : string) (j : nat) :
  (j < String.length s)%nat -> is_Some (String.get j s).
Proof.
  revert j. induction s as [|d s IH]; intros j Hj; simpl in *; [lia|].
  destruct j as [|j]; [by eexists | apply IH; lia].
Qed.

Lemma get_append_l (s t : string) (i : nat) :
  (i < String.length s)%nat -> String.get i (s +:+ t) = String.get i s.
Proof.
  revert i. induction s as [|c s IH]; intros i Hi; simpl in Hi; [lia|].
  destruct i as [|i]; [reflexivity|]. apply IH. lia.
Qed.

Lemma sliceFrom_append_l (s t : string) (i : nat) :
  (i <= String.length s)%nat -> sliceFrom i (s +:+ t) = sliceFrom i s +:+ t.
Proof.
  unfold sliceFrom. revert i. induction s as [|c s IH]; intros i Hi; simpl in Hi.
  - replace i with 0%nat by lia. change (EmptyString +:+ t) with t.
    rewrite Nat.sub_0_r, substring_all. reflexivity.
  - destruct i as [|i].
    + rewrite !Nat.sub_0_r, !substring_all. reflexivity.
    + change (String.substring i (String.length (s +:+ t) - i) (s +:+ t)
              = String.substring i (String.length s - i) s +:+ t).
      apply IH. lia.
Qed.

Lemma sliceFrom_get (s : string) (i : nat) (c : ascii) :
  String.get i s = Some c -> exists r, sliceFrom i s = String c r.
Proof.
  unfold sliceFrom. revert i. induction s as [|d s IH]; intros i Hget; [done|].
  destruct i as [|i].
  - injection Hget as ->. rewrite Nat.sub_0_r, substring_all. by eexists.
  - apply (IH i Hget).
Qed.

Lemma allBytes_append (p : ascii -> bool) (s t : string) :
  allBytes p (s +:+ t) = allBytes p s && allBytes p t.
Proof.
  induction s as [|c s IH]; [reflexivity|].
  change (p c && allBytes p (s +:+ t) = p c && allBytes p s && allBytes p t).
  by rewrite IH, andb_assoc.
Qed.

Lemma allBytes_substring (p : ascii -> bool) (s : string) (i n : nat) :
  allBytes p s = true -> allBytes p (String.substring i n s) = true.
Proof.
  revert i n. induction s as [|c s IH]; intros i n Hs.
  - by destruct i, n.
  - cbn [allBytes] in Hs. apply andb_true_iff in Hs as [Hc Hs].
    destruct i as [|i]; [|by apply IH].
    destruct n as [|n]; [reflexivity|].
    cbn [String.substring allBytes]. rewrite Hc. by apply (IH 0%nat).
Qed.

Lemma mapBytes_append (f : ascii -> ascii) (s t : string) :
  mapBytes f (s +:+ t) = mapBytes f s +:+ mapBytes f t.
Proof.
  induction s as [|c s IH]; [reflexivity|].
  change (String (f c) (mapBytes f (s +:+ t))
          = String (f c) (mapBytes f s +:+ mapBytes f t)).
  by rewrite IH.
Qed.

Lemma append_assoc (a b c : string) : (a +:+ b) +:+ c = a +:+ (b +:+ c).
Proof.
  induction a as [|x a IH]; [reflexivity|].
  change (String x ((a +:+ b) +:+ c) = String x (a +:+ (b +:+ c))).
  by rewrite IH.
Qed.

(** The loop walks back over a suffix of plain bytes. *)
Lemma ExtLoop_skip (s t : string) (k : nat) :
  allBytes plainByte t = true -> (k <= String.length t)%nat ->
  ExtLoop (s +:+ t) (String.length s + k) = ExtLoop (s +:+ t) (String.length s).
Proof.
  intros Hplain. induction k as [|k IH]; intros Hk.
  - by rewrite Nat.add_0_r.
  - rewrite Nat.add_succ_r. cbn [ExtLoop]. rewrite get_append_r.
    destruct (get_lt t k) as [c Hc]; [lia|]. rewrite Hc.
    pose proof (allBytes_get _ _ _ _ Hplain Hc) as Hp.
    apply andb_true_iff in Hp as [Hsep Hdot].
    apply negb_true_iff in Hsep, Hdot. rewrite Hsep, Hdot.
    apply IH. lia.
Qed.

(** Started inside [s], the loop gives on [s] followed by [t] what it gives
    on [s], followed by [t] unless it is empty. *)
Lemma ExtLoop_append_l (s t : string) (n : nat) :
  (n <= String.length s)%nat ->
  ExtLoop (s +:+ t) n
  = match ExtLoop s n with
    | EmptyString => EmptyString
    | String c e => String c e +:+ t
    end.
Proof.
  induction n as [|i IH]; intros Hn; [reflexivity|].
  cbn [ExtLoop]. rewrite get_append_l by lia.
  destruct (String.get i s) as [c|] eqn:Hget; [|reflexivity].
  destruct (IsPathSeparator c); [reflexivity|].
  destruct (Ascii.eqb c ".").
  - rewrite sliceFrom_append_l by lia.
    destruct (sliceFrom_get s i c Hget) as [r ->]. reflexivity.
  - apply IH. lia.
Qed.

Lemma ExtLoop_dot (s : string) (n : nat) :
  ExtLoop s n = EmptyString \/ exists r, ExtLoop s n = String "." r.
Proof.
  induction n as [|i IH]; [by left|]. cbn [ExtLoop].
  destruct (String.get i s) as [c|] eqn:Hget; [|by left].
  destruct (IsPathSeparator c); [by left|].
  destruct (Ascii.eqb_spec c "."%char) as [->|_]; [|exact IH].
  right. exact (sliceFrom_get s i _ Hget).
Qed.

Lemma ExtLoop_ascii (s : string) (n : nat) :
  isASCII s = true -> isASCII (ExtLoop s n) = true.
Proof.
  intros Hs. induction n as [|i IH]; [reflexivity|]. cbn [ExtLoop].
  destruct (String.get i s) as [c|]; [|reflexivity].
  destruct (IsPathSeparator c); [reflexivity|].
  destruct (Ascii.eqb c "."); [|exact IH].
  by apply allBytes_substring.
Qed.

(** The loop stops on a dot. *)
Lemma ExtLoop_at_dot (name rest : string) :
  ExtLoop (name +:+ String "." rest) (S (String.length name)) = String "." rest.
Proof.
  cbn [ExtLoop].
  pose proof (get_append_r name (String "." rest) 0) as Hget.
  rewrite Nat.add_0_r in Hget. rewrite Hget. cbn [String.get].
  change (IsPathSeparator ".") with false. change (Ascii.eqb "." ".") with true.
  cbv iota. apply sliceFrom_append.
Qed.

(** A dotted extension at the end of a name is the extension of the name. *)
Lemma Ext_dotted (name ext : string) :
  dotted ext = true -> Ext (name +:+ ext) = ext.
Proof.
  destruct ext as [|c rest]; [done|]. cbn [dotted].
  destruct (Ascii.eqb_spec c "."%char) as [->|Hne].
  - intros Hplain. unfold Ext.
    change (name +:+ String "." rest) with (name +:+ ("." +:+ rest)).
    rewrite <- append_assoc, length_append.
    rewrite ExtLoop_skip by (exact Hplain || lia).
    rewrite length_append, Nat.add_1_r, append_assoc.
    apply ExtLoop_at_dot.
  - intros Hd. exfalso. revert Hd.
    destruct c as [[] [] [] [] [] [] [] []]; done.
Qed.

(** The suffix ["hpp"] has no dot: the extension of [name] followed by
    ["hpp"] is that of [name], followed by ["hpp"] unless it is empty. *)
Lemma Ext_hpp (name : string) :
  Ext (name +:+ "hpp")
  = match Ext name with
    | EmptyString => EmptyString
    | String c e => String c e +:+ "hpp"
    end.
Proof.
  unfold Ext. rewrite length_append.
  rewrite ExtLoop_skip by (reflexivity || (simpl; lia)).
  by apply ExtLoop_append_l.
Qed.

End Strings.

(** ** The extension table and its lookup *)

Section Lookup.

Lemma rangeExts_Some (lang : string) (exts : list string) (ext l : string) :
  rangeExts lang exts ext = Some l -> l = lang /\ ext ∈ exts.
Proof.
  induction exts as [|elem exts IH]; simpl; [done|].
  destruct (String.eqb_spec elem ext) as [->|Hne].
  - intros [= <-]. split; [done | left].
  - intros [-> Hin]%IH. split; [done | by right].
Qed.

Lemma rangeExts_None (lang : string) (exts : list string) (ext : string) :
  rangeExts lang exts ext = None -> ext ∉ exts.
Proof.
  induction exts as [|elem exts IH]; simpl; [intros _; apply not_elem_of_nil|].
  destruct (String.eqb_spec elem ext) as [->|Hne]; [done|].
  intros Hnone%IH [->|Hin]%elem_of_cons; done.
Qed.

Lemma rangeExts_elem (lang : string) (exts : list string) (ext : string) :
  ext ∈ exts -> rangeExts lang exts ext = Some lang.
Proof.
  intros Hin. destruct (rangeExts lang exts ext) as [l|] eqn:E.
  - by apply rangeExts_Some in E as [-> _].
  - by apply rangeExts_None in E.
Qed.

(** What the scan of a table returns: an owner of the extension, or the
    empty string when no language lists it. *)
Lemma rangeLangExtsLoop_spec (order : list (string * list string)) (ext : string) :
  (exists exts, (rangeLangExtsLoop order ext, exts) ∈ order /\ ext ∈ exts)
  \/ (rangeLangExtsLoop order ext = EmptyString
      /\ forall lang exts, (lang, exts) ∈ order -> ext ∉ exts).
Proof.
  induction order as [|[lang exts] order IH]; simpl.
  - right. split; [done|]. intros ?? []%elem_of_nil.
  - destruct (rangeExts lang exts ext) as [l|] eqn:E.
    + apply rangeExts_Some in E as [-> Hin]. left. exists exts. split; [left | done].
    + apply rangeExts_None in E. destruct IH as [(exts' & Hin & Hext)|[Hnone Hall]].
      * left. exists exts'. split; [by right | done].
      * right. split; [done|].
        intros l' e' [[= -> ->]|Hin]%elem_of_cons; [done | by eapply Hall].
Qed.

(** With disjoint ownership the scan returns the owner, whatever the order. *)
Lemma rangeLangExtsLoop_owner (order : list (string * list string))
  (lang : string) (exts : list string) (ext : string) :
  disjointExts order -> (lang, exts) ∈ order -> ext ∈ exts ->
  rangeLangExtsLoop order ext = lang.
Proof.
  intros Hdis Hin Hext.
  destruct (rangeLangExtsLoop_spec order ext) as [(exts' & Hin' & Hext')|[_ Hall]].
  - by eapply Hdis.
  - by destruct (Hall _ _ Hin).
Qed.

Lemma elem_of_perm {A} (x : A) (l1 l2 : list A) : l1 ≡ₚ l2 -> x ∈ l1 -> x ∈ l2.
Proof. intros Hp. by rewrite Hp. Qed.

Lemma disjointExts_perm (o1 o2 : list (string * list string)) :
  o1 ≡ₚ o2 -> disjointExts o1 -> disjointExts o2.
Proof.
  intros Hp Hdis l1 e1 l2 e2 x H1 H2.
  apply (elem_of_perm _ _ _ (symmetry Hp)) in H1, H2. by eapply Hdis.
Qed.

Lemma rangeLangExtsLoop_perm (o1 o2 : list (string * list string)) (ext : string) :
  disjointExts o1 -> o1 ≡ₚ o2 ->
  rangeLangExtsLoop o1 ext = rangeLangExtsLoop o2 ext.
Proof.
  intros Hdis Hp.
  destruct (rangeLangExtsLoop_spec o1 ext) as [(exts & Hin & Hext)|[-> Hall]].
  - symmetry. eapply rangeLangExtsLoop_owner; [by eapply disjointExts_perm| |done].
    by eapply elem_of_perm.
  - destruct (rangeLangExtsLoop_spec o2 ext) as [(exts & Hin & Hext)|[-> _]]; [|done].
    apply (elem_of_perm _ _ _ (symmetry Hp)) in Hin. by destruct (Hall _ _ Hin).
Qed.

(** The shipped table, entry by entry. *)
Lemma langExts_entries :
  map_to_list langExts ≡ₚ [
    ("c#", [".cs"]);
    ("c++", [".h"; ".c"; ".cpp"; ".cxx"; "hpp"]);
    ("go", [".go"]);
    ("java", [".java"]);
    ("javascript", [".js"]);
    ("perl", [".perl"; ".prl"; ".pl"]);
    ("php", [".php"]);
    ("python", [".py"]);
    ("ruby", [".rb"]);
    ("rust", [".rs"]);
    ("swift", [".swift"]) ].
Proof.
  unfold langExts. apply map_to_list_to_map.
  apply (bool_decide_unpack _). vm_compute. exact I.
Qed.

(** A table in which the scan maps every listed extension to the language
    that lists it has disjoint ownership. *)
Lemma disjointExts_scan (kvs : list (string * list string)) :
  Forall (fun kv => Forall (fun x => rangeLangExtsLoop kvs x = kv.1) kv.2) kvs ->
  disjointExts kvs.
Proof.
  intros Hall l1 e1 l2 e2 x H1 H2 Hx1 Hx2.
  rewrite Forall_forall in Hall.
  pose proof (Hall _ H1) as Ha. pose proof (Hall _ H2) as Hb.
  rewrite Forall_forall in Ha, Hb. simpl in *.
  by rewrite <- (Ha x Hx1), <- (Hb x Hx2).
Qed.

Lemma langExts_disjoint : disjointExts (map_to_list langExts).
Proof.
  apply (disjointExts_perm _ _ (symmetry langExts_entries)).
  apply disjointExts_scan.
  apply (bool_decide_unpack _). vm_compute. exact I.
Qed.

End Lookup.

(** ** The two loops of [DetectDirLang] *)

Section Loops.

Context {U : Unicode}.

Lemma wrapInt_small (z : Z) : MinInt <= z <= MaxInt -> wrapInt z = z.
Proof.
  unfold wrapInt, MinInt, MaxInt, intSize. intros Hz.
  rewrite Z.mod_small; lia.
Qed.

Lemma getLangByExt_rangeOf (order : list (string * list string)) (ext : string) :
  rangeOf langExts order ->
  getLangByExt order ext = getLangByExt (map_to_list langExts) ext.
Proof.
  intros Hp. unfold getLangByExt. symmetry.
  apply rangeLangExtsLoop_perm; [apply langExts_disjoint | by symmetry].
Qed.

Lemma counted_langOf (f : FileInfo) : counted f = true -> langOf f <> EmptyString.
Proof.
  unfold counted. intros [_ Hlen%Nat.ltb_lt]%andb_true_iff Heq.
  rewrite Heq in Hlen. simpl in Hlen. lia.
Qed.

Lemma votes_cons (l : string) (f : FileInfo) (fs : list FileInfo) :
  votes l (f :: fs)
  = if decide (counted f = true /\ langOf f = l) then S (votes l fs) else votes l fs.
Proof.
  unfold votes. case_decide.
  - by rewrite filter_cons_True.
  - by rewrite filter_cons_False.
Qed.

Lemma votes_le (l : string) (fs : list FileInfo) : (votes l fs <= length fs)%nat.
Proof. apply length_filter. Qed.

Lemma votes_empty_name (fs : list FileInfo) : votes EmptyString fs = 0%nat.
Proof.
  induction fs as [|f fs IH]; [done|]. rewrite votes_cons, IH.
  case_decide as Hc; [|reflexivity]. destruct Hc as [Hc Hl].
  destruct (counted_langOf _ Hc Hl).
Qed.

Lemma votes_perm (l : string) (fs fs' : list FileInfo) :
  fs ≡ₚ fs' -> votes l fs = votes l fs'.
Proof. intros Hp. unfold votes. by rewrite Hp. Qed.

Context {O : MapOrder} {OK : MapOrderOK}.

(** One turn of the first loop. *)
Lemma rangeFiles_cons (i : nat) (f : FileInfo) (fs : list FileInfo)
  (m : gmap string Z) :
  rangeFiles i (f :: fs) m
  = rangeFiles (S i) fs (if counted f then incr (langOf f) m else m).
Proof.
  cbn [rangeFiles]. unfold counted, langOf.
  rewrite (getLangByExt_rangeOf (rangeLangExts i)) by apply rangeLangExts_ok.
  destruct (IsDir f); cbn [negb andb]; [reflexivity|].
  destruct (0 <? _)%nat; reflexivity.
Qed.

(** The tally after the first loop: every language gains its votes. *)
Lemma rangeFiles_lookup (fs : list FileInfo) (i : nat) (m : gmap string Z)
  (l : string) :
  0 <= default 0 (m !! l) ->
  default 0 (m !! l) + Z.of_nat (votes l fs) <= MaxInt ->
  rangeFiles i fs m !! l
  = if decide (votes l fs = 0%nat) then m !! l
    else Some (default 0 (m !! l) + Z.of_nat (votes l fs)).
Proof.
  revert i m. induction fs as [|f fs IH]; intros i m Hlo Hhi.
  - done.
  - rewrite rangeFiles_cons. rewrite votes_cons in Hhi |- *.
    destruct (decide (counted f = true /\ langOf f = l)) as [[Hc Heq]|Hn].
    + rewrite Hc.
      assert (incr (langOf f) m !! l = Some (default 0 (m !! l) + 1)) as Hl.
      { unfold incr. rewrite Heq, lookup_insert_eq. f_equal.
        apply wrapInt_small. unfold MinInt, MaxInt, intSize in *. lia. }
      rewrite IH; rewrite Hl; cbn [default from_option id]; [|lia|lia].
      rewrite (decide_False (P := S _ = 0%nat)) by lia.
      case_decide as Hz; [rewrite Hz|]; f_equal; lia.
    + destruct (counted f) eqn:Hc; [|apply IH; [exact Hlo | exact Hhi]].
      assert (incr (langOf f) m !! l = m !! l) as Hl.
      { unfold incr. rewrite lookup_insert_ne; [reflexivity|].
        intros Heq. apply Hn. split; [reflexivity | exact Heq]. }
      rewrite IH; rewrite Hl; [reflexivity | exact Hlo | exact Hhi].
Qed.

Lemma tally_lookup (fs : list FileInfo) (l : string) :
  sliceLen fs ->
  rangeFiles 0 fs ∅ !! l
  = if decide (votes l fs = 0%nat) then None else Some (Z.of_nat (votes l fs)).
Proof.
  intros Hlen. pose proof (votes_le l fs) as Hle. unfold sliceLen in Hlen.
  rewrite rangeFiles_lookup; rewrite lookup_empty; simpl; [done|lia|lia].
Qed.

Lemma tally_positive (fs : list FileInfo) (l : string) (v : Z) :
  sliceLen fs -> rangeFiles 0 fs ∅ !! l = Some v ->
  1 <= v /\ v = Z.of_nat (votes l fs) /\ l <> EmptyString.
Proof.
  intros Hlen. rewrite tally_lookup by done.
  case_decide as Hz; [done|]. intros [= <-]. split_and!; [lia|done|].
  intros ->. by rewrite votes_empty_name in Hz.
Qed.

(** The second loop keeps the last of the entries with the greatest count,
    when one reaches the initial count. *)
Lemma foldl_pick_spec (kvs : list (string * Z)) (best : string * Z) :
  (foldl pick best kvs = best /\ Forall (fun kv => kv.2 < best.2) kvs)
  \/ (exists l1 k v l2,
        kvs = l1 ++ (k, v) :: l2 /\ foldl pick best kvs = (k, v) /\
        best.2 <= v /\
        Forall (fun kv => kv.2 <= v) l1 /\ Forall (fun kv => kv.2 < v) l2).
Proof.
  induction kvs as [|x kvs IH] using rev_ind; [by left|].
  rewrite foldl_app. simpl. unfold pick at 1 3.
  rewrite Z.geb_leb.
  destruct IH as [[-> Hall]|(l1 & k & v & l2 & -> & -> & Hbest & H1 & H2)].
  - destruct (Z.leb_spec best.2 x.2) as [Hle|Hlt].
    + right. exists kvs, x.1, x.2, []. destruct x as [xk xv]. simpl in *.
      split_and!; [done|done|done| |done].
      eapply Forall_impl; [exact Hall|]. simpl. lia.
    + left. split; [done|]. apply Forall_app. split; [done|].
      by apply Forall_singleton.
  - right. simpl. destruct (Z.leb_spec v x.2) as [Hle|Hlt].
    + exists (l1 ++ (k, v) :: l2), x.1, x.2, []. destruct x as [xk xv]. simpl in *.
      split_and!; [done|done|lia| |done].
      apply Forall_app. split; [|apply Forall_cons; split].
      * eapply Forall_impl; [exact H1|]. simpl. lia.
      * simpl. lia.
      * eapply Forall_impl; [exact H2|]. simpl. lia.
    + exists l1, k, v, (l2 ++ [x]).
      split_and!; [by rewrite <- app_assoc|done|done|done|].
      apply Forall_app. split; [done|]. by apply Forall_singleton.
Qed.

End Loops.

(** ** [DetectDirLang] *)

Section Detect.

Context {FS : FileSystem} {U : Unicode} {O : MapOrder}.

Lemma DetectDirLang_unfold (dir : string) :
  DetectDirLang dir
  = match (ReadDir dir).2 with
    | Some e => (EmptyString, Some e)
    | None =>
        let langsMap := rangeFiles 0 (ReadDir dir).1 ∅ in
        if (size langsMap =? 0)%nat
        then (EmptyString, Some (errors_New noLangMessage))
        else
          let best := rangeTally (rangeLangsMap langsMap) in
          if (0 <? String.length best.1)%nat then (best.1, None)
          else (EmptyString, Some (errors_New noLangMessage))
    end.
Proof.
  unfold DetectDirLang. destruct (ReadDir dir) as [fs [e|]]; cbn [fst snd]; [reflexivity|].
  destruct (size _ =? 0)%nat; [reflexivity|].
  cbv zeta. destruct (rangeTally _) as [lang cnt]. reflexivity.
Qed.

Lemma lookup_Some_nonempty {V} (m : gmap string V) (k : string) (v : V) :
  m !! k = Some v -> m <> ∅.
Proof. intros Hk ->. by rewrite lookup_empty in Hk. Qed.

Lemma length_pos_nonempty (s : string) :
  s <> EmptyString -> (0 <? String.length s)%nat = true.
Proof. destruct s; [done | reflexivity]. Qed.

Context {OK : MapOrderOK}.

(** A tally that is not empty yields a language: the one the second loop
    visits last among those of greatest count. *)
Lemma DetectDirLang_tallied (dir : string) (fs : list FileInfo) :
  ReadDir dir = (fs, None) -> sliceLen fs ->
  rangeFiles 0 fs ∅ <> ∅ ->
  exists l1 k v l2,
    rangeLangsMap (rangeFiles 0 fs ∅) = l1 ++ (k, v) :: l2 /\
    DetectDirLang dir = (k, None) /\
    rangeFiles 0 fs ∅ !! k = Some v /\
    Forall (fun kv => kv.2 <= v) l1 /\ Forall (fun kv => kv.2 < v) l2 /\
    k <> EmptyString /\ 1 <= v.
Proof.
  intros Hread Hlen Hne. set (m := rangeFiles 0 fs ∅) in *.
  pose proof (rangeLangsMap_ok m) as Hperm. unfold rangeOf in Hperm.
  assert (forall kv, kv ∈ rangeLangsMap m -> m !! kv.1 = Some kv.2) as Hin.
  { intros [k v] Hkv. apply elem_of_map_to_list. by eapply elem_of_perm. }
  assert (size m <> 0%nat) as Hsize by (by rewrite map_size_non_empty_iff).
  rewrite DetectDirLang_unfold, Hread. cbn [fst snd]. fold m.
  rewrite (proj2 (Nat.eqb_neq _ _) Hsize). cbv zeta. unfold rangeTally.
  destruct (foldl_pick_spec (rangeLangsMap m) (EmptyString, 0))
    as [[_ Hall]|(l1 & k & v & l2 & Heq & -> & _ & Ha & Hb)].
  - exfalso. destruct (rangeLangsMap m) as [|[k v] rest] eqn:E.
    + apply Hsize. rewrite <- length_map_to_list, <- Hperm. reflexivity.
    + apply Forall_cons in Hall as [Hv _]. simpl in Hv.
      destruct (tally_positive fs k v Hlen) as [Hpos _]; [|lia].
      apply (Hin (k, v)). left.
  - assert (m !! k = Some v) as Hk.
    { apply (Hin (k, v)). rewrite Heq. apply elem_of_app. right. left. }
    destruct (tally_positive fs k v Hlen Hk) as (Hpos & _ & Hname).
    exists l1, k, v, l2. cbn [fst snd].
    rewrite (length_pos_nonempty k Hname). done.
Qed.

Lemma tally_nonempty (fs : list FileInfo) (f : FileInfo) :
  sliceLen fs -> f ∈ fs -> counted f = true -> rangeFiles 0 fs ∅ <> ∅.
Proof.
  intros Hlen Hin Hc Hempty.
  pose proof (tally_lookup fs (langOf f) Hlen) as Hl.
  rewrite Hempty, lookup_empty in Hl.
  case_decide as Hz; [|done]. unfold votes in Hz.
  apply length_zero_iff_nil in Hz.
  assert (f ∈ filter (fun f' => counted f' = true /\ langOf f' = langOf f) fs) as Hf.
  { apply list_elem_of_filter. done. }
  rewrite Hz in Hf. by apply elem_of_nil in Hf.
Qed.

Lemma tally_empty (fs : list FileInfo) :
  Forall (fun f => counted f = false) fs -> forall i, rangeFiles i fs ∅ = ∅.
Proof.
  induction 1 as [|f fs Hf _ IH]; intros i; [reflexivity|].
  rewrite rangeFiles_cons, Hf. apply IH.
Qed.

Lemma tally_index (fs : list FileInfo) (i j : nat) (m : gmap string Z) :
  rangeFiles i fs m = rangeFiles j fs m.
Proof.
  revert i j m. induction fs as [|f fs IH]; intros i j m; [reflexivity|].
  rewrite !rangeFiles_cons. apply IH.
Qed.

Lemma tally_filter (fs : list FileInfo) (i : nat) (m : gmap string Z) :
  rangeFiles i fs m = rangeFiles i (filter (fun f => counted f = true) fs) m.
Proof.
  revert i m. induction fs as [|f fs IH]; intros i m; [reflexivity|].
  rewrite rangeFiles_cons. destruct (counted f) eqn:Hc.
  - rewrite filter_cons_True by done. rewrite rangeFiles_cons, Hc. apply IH.
  - rewrite filter_cons_False by (rewrite Hc; done).
    rewrite (tally_index _ _ i). apply IH.
Qed.

End Detect.

(** ** Lower-casing *)

Section Lowering.

Lemma mapBytes_lowerByte_idem (s : string) :
  mapBytes lowerByte (mapBytes lowerByte s) = mapBytes lowerByte s.
Proof.
  induction s as [|c s IH]; [reflexivity|]. cbn [mapBytes]. rewrite IH. f_equal.
  destruct c as [[] [] [] [] [] [] [] []]; reflexivity.
Qed.

Lemma hasUpper_lowered (s : string) : hasUpper (mapBytes lowerByte s) = false.
Proof.
  induction s as [|c s IH]; [reflexivity|]. unfold hasUpper in *.
  cbn [mapBytes anyByte]. rewrite IH, orb_false_r.
  destruct c as [[] [] [] [] [] [] [] []]; reflexivity.
Qed.

Lemma isASCII_lowered (s : string) : isASCII (mapBytes lowerByte s) = isASCII s.
Proof.
  induction s as [|c s IH]; [reflexivity|]. unfold isASCII in *.
  cbn [mapBytes allBytes]. rewrite IH. f_equal.
  destruct c as [[] [] [] [] [] [] [] []]; reflexivity.
Qed.

(** On ASCII strings [strings.ToLower] is idempotent whatever the tables. *)
Lemma ToLower_ascii_idem {U : Unicode} (s : string) :
  isASCII s = true -> ToLower (ToLower s) = ToLower s.
Proof.
  intros Hs. unfold ToLower. rewrite Hs.
  destruct (hasUpper s) eqn:Hu.
  - by rewrite isASCII_lowered, Hs, hasUpper_lowered.
  - by rewrite Hs, Hu.
Qed.

Lemma mapBytes_lowered (s : string) :
  hasUpper s = false -> mapBytes lowerByte s = s.
Proof.
  unfold hasUpper. induction s as [|c s IH]; [reflexivity|].
  cbn [anyByte mapBytes]. intros [Hc Hs]%orb_false_iff.
  rewrite IH by done. unfold lowerByte. by rewrite Hc.
Qed.

(** On an ASCII string [strings.ToLower] is the byte-wise lower-casing. *)
Lemma ToLower_ascii {U : Unicode} (s : string) :
  isASCII s = true -> ToLower s = mapBytes lowerByte s.
Proof.
  intros Hs. unfold ToLower. rewrite Hs.
  destruct (hasUpper s) eqn:Hu; [reflexivity|]. by rewrite mapBytes_lowered.
Qed.

End Lowering.

(** ** The concrete environment is a lawful one *)

Section DemoLaws.

Lemma listOrder_ok : @MapOrderOK listOrder.
Proof. split; intros; unfold rangeOf; reflexivity. Qed.

Lemma reverseOrder_ok : @MapOrderOK reverseOrder.
Proof. split; intros; unfold rangeOf; cbn; apply reverse_Permutation. Qed.

Lemma caseless_idempotent : @lowerIdempotent caseless.
Proof.
  intros s. destruct (isASCII s) eqn:Hs; [by apply ToLower_ascii_idem|].
  unfold ToLower. rewrite Hs. cbn [unicodeToLower caseless].
  rewrite isASCII_lowered, Hs. cbn [unicodeToLower caseless].
  apply mapBytes_lowerByte_idem.
Qed.

End DemoLaws.

(** ** Detection succeeds when an entry is tallied *)

Section Success.

Context {FS : FileSystem} {U : Unicode} {O : MapOrder} {OK : MapOrderOK}.

(** C10: when the listing succeeds (a slice, of at most [MaxInt] entries)
    and some entry that is not a directory has an extension looked up to a
    supported language, every tallied language has a name that is not empty
    and a count of at least 1, the second loop takes the first entry it
    visits and ends on a name that is not empty (so the final error return
    is not reached), and [DetectDirLang] returns a language with no error. *)
Theorem DetectDirLang_supported_entry (dir : string) (fs : list FileInfo)
  (f : FileInfo) :
  ReadDir dir = (fs, None) -> sliceLen fs ->
  f ∈ fs -> IsDir f = false -> langOf f <> EmptyString ->
  (forall k v, rangeFiles 0 fs ∅ !! k = Some v -> k <> EmptyString /\ 1 <= v) /\
  (forall kv rest,
     rangeLangsMap (rangeFiles 0 fs ∅) = kv :: rest ->
     pick (EmptyString, 0) kv = kv) /\
  (rangeTally (rangeLangsMap (rangeFiles 0 fs ∅))).1 <> EmptyString /\
  exists lang, lang <> EmptyString /\ DetectDirLang dir = (lang, None).
Proof.
  intros Hread Hlen Hin Hdir Hlang.
  assert (forall k v, rangeFiles 0 fs ∅ !! k = Some v ->
                      k <> EmptyString /\ 1 <= v) as Htallied.
  { intros k' v' Hk'.
    destruct (tally_positive fs k' v' Hlen Hk') as (? & _ & ?). done. }
  assert (counted f = true) as Hc.
  { unfold counted. rewrite Hdir. cbn [negb andb]. by apply length_pos_nonempty. }
  pose proof (tally_nonempty fs f Hlen Hin Hc) as Hne.
  destruct (DetectDirLang_tallied dir fs Hread Hlen Hne)
    as (l1 & k & v & l2 & Horder & Hres & Hk & _ & _ & Hname & Hv).
  split_and!.
  - exact Htallied.
  - intros [k' v'] rest Hfirst.
    assert (rangeFiles 0 fs ∅ !! k' = Some v') as Hk'.
    { apply elem_of_map_to_list.
      eapply elem_of_perm; [apply rangeLangsMap_ok|]. rewrite Hfirst. left. }
    destruct (Htallied k' v' Hk') as [_ Hv'].
    unfold pick. cbn [fst snd]. rewrite Z.geb_leb.
    destruct (Z.leb_spec 0 v') as [_|Hlt]; [reflexivity | lia].
  - rewrite DetectDirLang_unfold, Hread in Hres. cbn [fst snd] in Hres.
    destruct (size _ =? 0)%nat; [discriminate Hres|]. cbv zeta in Hres.
    destruct (0 <? _)%nat; [|discriminate Hres].
    injection Hres as ->. exact Hname.
  - exists k. done.
Qed.

End Success.

Lemma DetectDirLang_supported_entry_witness :
  (forall k v, @rangeFiles caseless listOrder 0 project ∅ !! k = Some v ->
               k <> EmptyString /\ 1 <= v) /\
  (forall kv rest,
     map_to_list (@rangeFiles caseless listOrder 0 project ∅) = kv :: rest ->
     pick (EmptyString, 0) kv = kv) /\
  (rangeTally (map_to_list (@rangeFiles caseless listOrder 0 project ∅))).1
    <> EmptyString /\
  exists lang, lang <> EmptyString /\
               @DetectDirLang disk caseless listOrder "project" = (lang, None).
Proof.
  apply (@DetectDirLang_supported_entry disk caseless listOrder listOrder_ok
           "project" project (file "main.go")).
  - reflexivity.
  - unfold sliceLen. vm_compute. discriminate.
  - unfold project. set_solver.
  - reflexivity.
  - vm_compute. discriminate.
Defined.

(** ** Greatest tally, ties *)

Section Winner.

Context {FS : FileSystem} {U : Unicode} {O : MapOrder} {OK : MapOrderOK}.

Lemma langOf_file (name ext : string) :
  dotted ext = true -> langOf (file (name +:+ ext))
                       = getLangByExt (map_to_list langExts) (ToLower ext).
Proof. intros Hd. unfold langOf, file. cbn [Name]. by rewrite Ext_dotted. Qed.

Lemma counted_file (name : string) :
  counted (file name) = (0 <? String.length (langOf (file name)))%nat.
Proof. reflexivity. Qed.

Lemma langOf_go (name : string) : langOf (file (name +:+ ".go")) = "go".
Proof. rewrite langOf_file by reflexivity. vm_compute. reflexivity. Qed.

Lemma langOf_py (name : string) : langOf (file (name +:+ ".py")) = "python".
Proof. rewrite langOf_file by reflexivity. vm_compute. reflexivity. Qed.

Lemma langOf_xyz (name : string) : langOf (file (name +:+ ".xyz")) = EmptyString.
Proof. rewrite langOf_file by reflexivity. vm_compute. reflexivity. Qed.

(** The votes of three [.go] files, two [.py] files and one [.xyz] file. *)
Lemma votes_go_py_xyz (a b c d e x lang : string) :
  votes lang [file (a +:+ ".go"); file (b +:+ ".go"); file (c +:+ ".go");
              file (d +:+ ".py"); file (e +:+ ".py"); file (x +:+ ".xyz")]
  = if decide (lang = "go") then 3%nat
    else if decide (lang = "python") then 2%nat else 0%nat.
Proof.
  rewrite !votes_cons, !counted_file, !langOf_go, !langOf_py, !langOf_xyz.
  unfold votes. rewrite filter_nil. cbn [length String.length Nat.ltb Nat.leb].
  repeat case_decide; try reflexivity; destruct_and?; simplify_eq; exfalso; tauto.
Qed.

(** C2: on a listing (a slice, of at most [MaxInt] entries) for which some
    language is tallied, [DetectDirLang] returns, with no error, a language
    whose tally no tallied language exceeds; and on a listing of three
    [.go] files, two [.py] files and one [.xyz] file, in any order and
    whatever the names, it returns ["go"] with no error. *)
Theorem DetectDirLang_greatest_tally (dir : string) (fs : list FileInfo) :
  ReadDir dir = (fs, None) -> sliceLen fs ->
  (rangeFiles 0 fs ∅ <> ∅ ->
   exists lang v,
     DetectDirLang dir = (lang, None) /\
     rangeFiles 0 fs ∅ !! lang = Some v /\
     forall l' v', rangeFiles 0 fs ∅ !! l' = Some v' -> v' <= v) /\
  (forall a b c d e x,
     fs ≡ₚ [file (a +:+ ".go"); file (b +:+ ".go"); file (c +:+ ".go");
            file (d +:+ ".py"); file (e +:+ ".py"); file (x +:+ ".xyz")] ->
     DetectDirLang dir = ("go", None)).
Proof.
  intros Hread Hlen.
  assert (rangeFiles 0 fs ∅ <> ∅ ->
          exists lang v,
            DetectDirLang dir = (lang, None) /\
            rangeFiles 0 fs ∅ !! lang = Some v /\
            forall l' v', rangeFiles 0 fs ∅ !! l' = Some v' -> v' <= v) as Hmax.
  { intros Hne.
    destruct (DetectDirLang_tallied dir fs Hread Hlen Hne)
      as (l1 & k & v & l2 & Horder & Hres & Hk & Ha & Hb & _ & _).
    exists k, v. split_and!; [done|done|].
    intros l' v' Hl'.
    assert ((l', v') ∈ rangeLangsMap (rangeFiles 0 fs ∅)) as Hin.
    { eapply elem_of_perm; [symmetry; apply rangeLangsMap_ok|].
      by apply elem_of_map_to_list. }
    rewrite Horder in Hin.
    apply elem_of_app in Hin as [Hin|[Heq|Hin]%elem_of_cons].
    - by apply (proj1 (Forall_forall _ _) Ha) in Hin.
    - injection Heq as -> ->. lia.
    - apply (proj1 (Forall_forall _ _) Hb) in Hin. simpl in Hin. lia. }
  split; [exact Hmax|].
  intros a b c d e x Hperm.
  assert (forall l, rangeFiles 0 fs ∅ !! l
                    = if decide (l = "go") then Some 3
                      else if decide (l = "python") then Some 2 else None) as Htally.
  { intros l. rewrite tally_lookup by done.
    rewrite (votes_perm l _ _ Hperm), votes_go_py_xyz.
    repeat case_decide; done. }
  destruct Hmax as (lang & v & Hres & Hlang & Hle).
  { intros Hempty. pose proof (Htally "go") as Hgo.
    rewrite Hempty, lookup_empty in Hgo. done. }
  rewrite Hres. f_equal.
  pose proof (Hle "go" 3) as Hgo. rewrite Htally in Hgo, Hlang.
  specialize (Hgo eq_refl).
  repeat case_decide; simplify_eq; first [reflexivity | lia].
Qed.

(** C3: the second loop is one pass that takes an entry whenever its count
    is at least the best one so far; hence, when some language is tallied
    (the listing being a slice, of at most [MaxInt] entries), the language
    returned is an entry [(k, v)] of the order walked such that no entry
    before it has a greater count and every entry after it has a smaller
    one: among the languages tied for the greatest count, the one visited
    last. *)
Theorem DetectDirLang_last_of_ties (dir : string) (fs : list FileInfo) :
  ReadDir dir = (fs, None) -> sliceLen fs -> rangeFiles 0 fs ∅ <> ∅ ->
  (forall order kv,
     rangeTally (order ++ [kv])
     = if (kv.2 >=? (rangeTally order).2) then kv else rangeTally order) /\
  rangeTally [] = (EmptyString, 0) /\
  exists l1 k v l2,
    rangeLangsMap (rangeFiles 0 fs ∅) = l1 ++ (k, v) :: l2 /\
    DetectDirLang dir = (k, None) /\
    (forall k' v', (k', v') ∈ l1 -> v' <= v) /\
    (forall k' v', (k', v') ∈ l2 -> v' < v).
Proof.
  intros Hread Hlen Hne. split_and!.
  - intros order [k v]. unfold rangeTally. by rewrite foldl_app.
  - reflexivity.
  - destruct (DetectDirLang_tallied dir fs Hread Hlen Hne)
      as (l1 & k & v & l2 & Horder & Hres & _ & Ha & Hb & _ & _).
    exists l1, k, v, l2. split_and!; [done|done| |].
    + intros k' v' Hin. by apply (proj1 (Forall_forall _ _) Ha) in Hin.
    + intros k' v' Hin. by apply (proj1 (Forall_forall _ _) Hb) in Hin.
Qed.

End Winner.

Lemma DetectDirLang_greatest_tally_witness :
  sliceLen project /\
  (exists lang v,
     @DetectDirLang disk caseless listOrder "project" = (lang, None) /\
     @rangeFiles caseless listOrder 0 project ∅ !! lang = Some v /\
     forall l' v', @rangeFiles caseless listOrder 0 project ∅ !! l' = Some v' ->
                   v' <= v) /\
  @DetectDirLang disk caseless listOrder "project" = ("go", None).
Proof.
  assert (sliceLen project) as Hlen by (unfold sliceLen; vm_compute; discriminate).
  destruct (@DetectDirLang_greatest_tally disk caseless listOrder listOrder_ok
              "project" project eq_refl Hlen) as [Hmax Hgo].
  split_and!.
  - exact Hlen.
  - apply Hmax. apply (lookup_Some_nonempty _ "go" 3). vm_compute. reflexivity.
  - apply (Hgo "block" "lang" "main" "gen" "setup" "notes").
    unfold project. cbn [String.app String.append].
    solve_Permutation.
Defined.

Lemma DetectDirLang_last_of_ties_witness :
  exists l1 k v l2,
    map_to_list (@rangeFiles caseless listOrder 0 [file "a.go"; file "b.py"] ∅)
    = l1 ++ (k, v) :: l2 /\
    @DetectDirLang disk caseless listOrder "mixed" = (k, None) /\
    (forall k' v', (k', v') ∈ l1 -> v' <= v) /\
    (forall k' v', (k', v') ∈ l2 -> v' < v).
Proof.
  apply (@DetectDirLang_last_of_ties disk caseless listOrder listOrder_ok
           "mixed" [file "a.go"; file "b.py"]).
  - reflexivity.
  - unfold sliceLen. vm_compute. discriminate.
  - apply (lookup_Some_nonempty _ "go" 1). vm_compute. reflexivity.
Defined.

(** With two languages tied, the order of the walk decides. *)
Example DetectDirLang_tie_listOrder :
  map_to_list (@rangeFiles caseless listOrder 0 [file "a.go"; file "b.py"] ∅)
  = [("go", 1); ("python", 1)] /\
  @DetectDirLang disk caseless listOrder "mixed" = ("python", None).
Proof. split; vm_compute; reflexivity. Qed.

Example DetectDirLang_tie_reverseOrder :
  @rangeLangsMap reverseOrder
    (@rangeFiles caseless reverseOrder 0 [file "a.go"; file "b.py"] ∅)
  = [("python", 1); ("go", 1)] /\
  @DetectDirLang disk caseless reverseOrder "mixed" = ("go", None).
Proof. split; vm_compute; reflexivity. Qed.

(** ** Entries passed over, and the two failures *)

Section Failures.

Context {FS : FileSystem} {U : Unicode} {O : MapOrder}.

Lemma counted_false_iff (f : FileInfo) : counted f = false <-> skipped f.
Proof.
  unfold counted, skipped. destruct (IsDir f); cbn [negb andb].
  - split; [by left | done].
  - rewrite Nat.ltb_ge. split.
    + intros Hlen. right. destruct (langOf f); [done | simpl in Hlen; lia].
    + intros [?| ->]; [done | simpl; lia].
Qed.

(** C6: when the listing fails, [DetectDirLang] returns the empty name and
    the very error of the listing, whatever entries come with it; and when
    [DetectDirLang] returns an error, the name is empty and the error is
    either that of the listing or, the listing having succeeded, the one
    that says that no supported language was found. *)
Theorem DetectDirLang_errors (dir : string) :
  (forall fs e, ReadDir dir = (fs, Some e) ->
                DetectDirLang dir = (EmptyString, Some e)) /\
  (forall lang e,
     DetectDirLang dir = (lang, Some e) ->
     lang = EmptyString /\
     ((ReadDir dir).2 = Some e
      \/ ((ReadDir dir).2 = None /\ e = errors_New noLangMessage))).
Proof.
  split.
  - intros fs e Hread. unfold DetectDirLang. by rewrite Hread.
  - intros lang e. rewrite DetectDirLang_unfold.
    destruct (ReadDir dir) as [fs [e'|]]; cbn [fst snd].
    + intros [= <- <-]. split; [reflexivity | by left].
    + destruct (Nat.eqb _ _).
      * intros [= <- <-]. split; [reflexivity | by right].
      * cbv zeta. destruct (Nat.ltb _ _); [discriminate|].
        intros [= <- <-]. split; [reflexivity | by right].
Qed.

Context {OK : MapOrderOK}.

(** C5: a turn of the first loop on a directory, or on an entry whose
    extension is looked up to no language, leaves the tally as it is; the
    result of [DetectDirLang] is the one it has on the listing without such
    entries; and when the listing has no other entry, [DetectDirLang]
    returns the error that says that no supported language was found. *)
Theorem DetectDirLang_skips (dir : string) (fs : list FileInfo) :
  ReadDir dir = (fs, None) ->
  (forall f rest i m,
     skipped f -> rangeFiles i (f :: rest) m = rangeFiles (S i) rest m) /\
  (forall dir',
     ReadDir dir' = (filter (fun f => ~ skipped f) fs, None) ->
     DetectDirLang dir = DetectDirLang dir') /\
  (Forall skipped fs ->
   DetectDirLang dir = (EmptyString, Some (errors_New noLangMessage))).
Proof.
  intros Hread. split_and!.
  - intros f rest i m Hs%counted_false_iff. by rewrite rangeFiles_cons, Hs.
  - intros dir' Hread'. rewrite !DetectDirLang_unfold, Hread, Hread'.
    cbn [fst snd].
    assert (filter (fun f => ~ skipped f) fs
            = filter (fun f => counted f = true) fs) as ->.
    { apply list_filter_iff. intros f. rewrite <- counted_false_iff.
      by destruct (counted f). }
    by rewrite <- tally_filter.
  - intros Hall. rewrite DetectDirLang_unfold, Hread. cbn [fst snd].
    rewrite tally_empty; [reflexivity|].
    eapply Forall_impl; [exact Hall|]. intros f. by rewrite counted_false_iff.
Qed.

End Failures.

Lemma DetectDirLang_errors_witness :
  @DetectDirLang disk caseless listOrder "nowhere"
  = (EmptyString,
     Some (PathError "open" "nowhere" "no such file or directory")).
Proof.
  apply (proj1 (@DetectDirLang_errors disk caseless listOrder "nowhere") []).
  reflexivity.
Defined.

Lemma DetectDirLang_skips_witness :
  Forall (@skipped caseless) docs /\
  @DetectDirLang disk caseless listOrder "docs"
  = (EmptyString, Some (errors_New noLangMessage)).
Proof.
  assert (Forall (@skipped caseless) docs) as Hall.
  { unfold docs.
    apply Forall_cons_2; [left; reflexivity|].
    apply Forall_cons_2; [right; vm_compute; reflexivity|].
    apply Forall_cons_2; [right; vm_compute; reflexivity|].
    apply Forall_nil_2. }
  split; [exact Hall|].
  apply (@DetectDirLang_skips disk caseless listOrder listOrder_ok "docs" docs);
    [reflexivity | exact Hall].
Defined.

(** ** The catalog *)

Section Catalog.

Lemma langs_entries :
  exists go js perl python php ruby,
    map_to_list langs ≡ₚ [
      ("c#", cStyle); ("c++", cStyle); ("go", go); ("java", cStyle);
      ("javascript", js); ("perl", perl); ("python", python); ("php", php);
      ("ruby", ruby); ("rust", cStyle); ("swift", cStyle) ] /\
    Forall (fun rules => rules <> [] /\ rules <> cStyle)
           [go; js; perl; python; php; ruby].
Proof.
  do 6 eexists. split.
  - unfold langs. apply map_to_list_to_map.
    apply (bool_decide_unpack _). vm_compute. exact I.
  - repeat (apply Forall_cons_2; [split; discriminate|]). apply Forall_nil_2.
Qed.

Lemma Langs_append (order : list (string * list block)) (ret : list string) :
  foldl (fun ret kv => ret ++ [kv.1]) ret order = ret ++ order.*1.
Proof.
  revert ret. induction order as [|kv order IH]; intros ret; simpl.
  - by rewrite app_nil_r.
  - rewrite IH, <- app_assoc. reflexivity.
Qed.

Lemma Langs_keys (order : list (string * list block)) : Langs order = order.*1.
Proof. unfold Langs. by rewrite Langs_append. Qed.

(** C7: no extension is listed for two languages of [langExts]; and
    therefore two walks of the table, in any two orders, look every
    extension up to the same language. *)
Theorem langExts_owner_unique :
  (forall l1 l2 e1 e2 x,
     langExts !! l1 = Some e1 -> langExts !! l2 = Some e2 ->
     x ∈ e1 -> x ∈ e2 -> l1 = l2) /\
  (forall (U : Unicode) o1 o2 ext,
     rangeOf langExts o1 -> rangeOf langExts o2 ->
     getLangByExt o1 ext = getLangByExt o2 ext).
Proof.
  split.
  - intros l1 l2 e1 e2 x H1%elem_of_map_to_list H2%elem_of_map_to_list.
    by apply langExts_disjoint.
  - intros U o1 o2 ext H1 H2.
    by rewrite (getLangByExt_rangeOf o1), (getLangByExt_rangeOf o2).
Qed.

(** C9: the entries ["c#"], ["c++"], ["java"], ["rust"] and ["swift"] of
    [langs], and no other, hold the list [cStyle], which is: the string
    delimited by double quotes with the backslash as escape, then the
    comment opened by two slashes, then the comment between slash-star and
    star-slash. *)
Theorem cStyle_family :
  cStyle = [
    mkBlock blockTypeString (String "034" EmptyString)
            (String "034" EmptyString) (String "092" EmptyString);
    mkBlock blockTypeSComment "//" EmptyString EmptyString;
    mkBlock blockTypeMComment "/*" "*/" EmptyString ] /\
  (forall l, l ∈ ["c#"; "c++"; "java"; "rust"; "swift"] ->
             langs !! l = Some cStyle) /\
  (forall l, langs !! l = Some cStyle ->
             l ∈ ["c#"; "c++"; "java"; "rust"; "swift"]).
Proof.
  split_and!.
  - reflexivity.
  - intros l Hl. repeat (apply elem_of_cons in Hl as [->|Hl]);
      [vm_compute; reflexivity ..|].
    by apply elem_of_nil in Hl.
  - intros l Hl%elem_of_map_to_list.
    destruct langs_entries as (go & js & perl & python & php & ruby & Hp & Hall).
    apply (elem_of_perm _ _ _ Hp) in Hl.
    repeat (apply Forall_cons in Hall as [[_ ?] Hall]).
    repeat (apply elem_of_cons in Hl as [Hl|Hl]);
      try (injection Hl as -> ?); try congruence; try set_solver.
Qed.

Context {U : Unicode}.

(** C8: every name that [Langs] returns has a rule list in [langs] that is
    not empty, and every extension that [langExts] lists for it is looked up
    to that name, in whatever order the table is walked. *)
Theorem Langs_rules_and_exts (order : list (string * list block)) (l : string) :
  rangeOf langs order -> l ∈ Langs order ->
  exists rules exts,
    langs !! l = Some rules /\ rules <> [] /\
    langExts !! l = Some exts /\
    forall e o, e ∈ exts -> rangeOf langExts o -> getLangByExt o e = l.
Proof.
  intros Hrange. rewrite Langs_keys. intros [[l' rules] [-> Hin]]%list_elem_of_fmap.
  apply (elem_of_perm _ _ _ Hrange) in Hin. cbn [fst].
  assert (langs !! l' = Some rules) as Hl by by apply elem_of_map_to_list.
  assert (rules <> []) as Hrules.
  { destruct langs_entries as (go & js & perl & python & php & ruby & Hp & Hall).
    apply (elem_of_perm _ _ _ Hp) in Hin.
    repeat (apply Forall_cons in Hall as [[? _] Hall]).
    repeat (apply elem_of_cons in Hin as [Hin|Hin]);
      try (injection Hin as -> ->); try done.
    by apply elem_of_nil in Hin. }
  assert (exists exts, (l', exts) ∈ map_to_list langExts) as [exts Hexts].
  { apply elem_of_dom_2 in Hl.
    assert (dom langs = dom langExts) as Hdom.
    { apply (bool_decide_unpack _). vm_compute. exact I. }
    rewrite Hdom in Hl. apply elem_of_dom in Hl as [exts Hl].
    exists exts. by apply elem_of_map_to_list. }
  exists rules, exts. split_and!; [done|done|by apply elem_of_map_to_list|].
  intros e o He Ho. rewrite (getLangByExt_rangeOf o) by done.
  unfold getLangByExt.
  assert (ToLower e = e) as ->.
  { apply (elem_of_perm _ _ _ langExts_entries) in Hexts.
    repeat (apply elem_of_cons in Hexts as [Hexts|Hexts]);
      try (injection Hexts as -> ->);
      try (by apply elem_of_nil in Hexts);
      repeat (apply elem_of_cons in He as [->|He]);
      try (by apply elem_of_nil in He); reflexivity. }
  by eapply rangeLangExtsLoop_owner; [apply langExts_disjoint| |].
Qed.

End Catalog.

Lemma cStyle_family_witness : langs !! "rust" = Some cStyle.
Proof.
  apply (proj1 (proj2 cStyle_family)).
  do 3 apply list_elem_of_further. apply list_elem_of_here.
Defined.

Lemma langExts_owner_unique_witness :
  @getLangByExt caseless (map_to_list langExts) ".PL"
  = @getLangByExt caseless (reverse (map_to_list langExts)) ".PL".
Proof.
  apply (proj2 langExts_owner_unique caseless).
  - unfold rangeOf. reflexivity.
  - unfold rangeOf. apply reverse_Permutation.
Defined.

Lemma Langs_rules_and_exts_witness :
  exists rules exts,
    langs !! "c++" = Some rules /\ rules <> [] /\
    langExts !! "c++" = Some exts /\
    forall e o, e ∈ exts -> rangeOf langExts o -> @getLangByExt caseless o e = "c++".
Proof.
  apply (@Langs_rules_and_exts caseless (map_to_list langs) "c++").
  - unfold rangeOf. reflexivity.
  - rewrite Langs_keys. apply list_elem_of_fmap.
    exists ("c++", cStyle). split; [reflexivity|].
    apply elem_of_map_to_list. vm_compute. reflexivity.
Defined.

(** ** Case of the input *)

Section LowerCase.

Context {U : Unicode}.

(** C4, as amended: [getLangByExt] looks an extension and its lower-cased
    form up to the same language, for every ASCII input and, lower-casing
    being idempotent, for every input; while [langIsSupported] matches its
    argument as it is against the keys of [langs]: it holds for these eleven
    lower-case names only, so that a supported name is its own lower-cased
    form. *)
Theorem lookups_and_case :
  (forall order ext,
     isASCII ext = true ->
     getLangByExt order ext = getLangByExt order (ToLower ext)) /\
  (lowerIdempotent ->
   forall order ext, getLangByExt order ext = getLangByExt order (ToLower ext)) /\
  (forall lang,
     langIsSupported lang = true <->
     lang ∈ ["c#"; "c++"; "go"; "java"; "javascript"; "perl"; "python"; "php";
             "ruby"; "rust"; "swift"]) /\
  (forall lang, langIsSupported lang = true -> ToLower lang = lang).
Proof.
  assert (forall lang,
            langIsSupported lang = true <->
            lang ∈ ["c#"; "c++"; "go"; "java"; "javascript"; "perl"; "python";
                    "php"; "ruby"; "rust"; "swift"]) as Hkeys.
  { intros lang. unfold langIsSupported. split.
    - destruct (langs !! lang) as [rules|] eqn:Hl; [intros _|discriminate].
      apply elem_of_map_to_list in Hl.
      destruct langs_entries as (go & js & perl & python & php & ruby & Hp & _).
      apply (elem_of_perm _ _ _ Hp) in Hl.
      repeat (apply elem_of_cons in Hl as [Hl|Hl]);
        try (injection Hl as -> _); try set_solver.
    - intros Hl. repeat (apply elem_of_cons in Hl as [->|Hl]);
        [reflexivity ..|].
      by apply elem_of_nil in Hl. }
  split_and!.
  - intros order ext Hascii. unfold getLangByExt.
    by rewrite ToLower_ascii_idem.
  - intros Hidem order ext. unfold getLangByExt. by rewrite Hidem.
  - exact Hkeys.
  - intros lang Hl. apply Hkeys in Hl.
    repeat (apply elem_of_cons in Hl as [->|Hl]); [reflexivity ..|].
    by apply elem_of_nil in Hl.
Qed.

End LowerCase.

Lemma lookups_and_case_witness :
  @getLangByExt caseless (map_to_list langExts) ".GO"
  = @getLangByExt caseless (map_to_list langExts) (@ToLower caseless ".GO") /\
  langIsSupported "go" = true /\ @ToLower caseless "go" = "go".
Proof.
  destruct (@lookups_and_case caseless) as (_ & Hext & Hkeys & Hlow).
  split_and!.
  - apply Hext, caseless_idempotent.
  - apply Hkeys. do 2 apply list_elem_of_further. apply list_elem_of_here.
  - apply Hlow. reflexivity.
Defined.

(** C4, as stated, fails for the lookup of a language name: the upper-case
    name ["GO"] is not supported although its lower-cased form ["go"] is. *)
Lemma langIsSupported_case_sensitive :
  (forall U : Unicode, @ToLower U "GO" = "go") /\
  langIsSupported "GO" = false /\
  langIsSupported "go" = true.
Proof. split_and!; [intros U|..]; vm_compute; reflexivity. Qed.

(** ** A directory of one file *)

Section SingleFile.

Context {FS : FileSystem} {U : Unicode} {O : MapOrder} {OK : MapOrderOK}.

Lemma DetectDirLang_one_counted (dir : string) (f : FileInfo) :
  ReadDir dir = ([f], None) -> counted f = true ->
  DetectDirLang dir = (langOf f, None).
Proof.
  intros Hread Hc.
  assert (sliceLen [f]) as Hlen by (unfold sliceLen; vm_compute; discriminate).
  assert (rangeFiles 0 [f] ∅ <> ∅) as Hne.
  { eapply tally_nonempty; [exact Hlen | left | exact Hc]. }
  destruct (DetectDirLang_tallied dir [f] Hread Hlen Hne)
    as (l1 & k & v & l2 & _ & Hres & Hk & _).
  rewrite Hres. f_equal.
  rewrite tally_lookup in Hk by exact Hlen. rewrite votes_cons in Hk.
  destruct (decide (counted f = true /\ langOf f = k)) as [[_ Heq]|Hn].
  - symmetry. exact Heq.
  - unfold votes in Hk. rewrite filter_nil in Hk. discriminate Hk.
Qed.

Lemma DetectDirLang_one_skipped (dir : string) (f : FileInfo) :
  ReadDir dir = ([f], None) -> counted f = false ->
  DetectDirLang dir = (EmptyString, Some (errors_New noLangMessage)).
Proof.
  intros Hread Hc. rewrite DetectDirLang_unfold, Hread. cbn [fst snd].
  rewrite tally_empty; [reflexivity|]. by apply Forall_singleton.
Qed.

(** Every entry of the table but ["hpp"] is a dotted extension that is
    looked up to the language listing it. *)
Lemma langExts_dotted (lang : string) (exts : list string) (ext : string) :
  (lang, exts) ∈ map_to_list langExts -> ext ∈ exts -> ext <> "hpp" ->
  dotted ext = true /\ lang <> EmptyString /\
  getLangByExt (map_to_list langExts) (ToLower ext) = lang.
Proof.
  intros Hl Hext Hhpp.
  apply (elem_of_perm _ _ _ langExts_entries) in Hl.
  match type of Hl with
  | _ ∈ ?entries =>
      assert (Forall (fun kv =>
                Forall (fun e =>
                  e = "hpp" \/
                  (dotted e = true /\ kv.1 <> EmptyString /\
                   getLangByExt (map_to_list langExts) (ToLower e) = kv.1))
                  kv.2) entries) as Hall
  end.
  { apply (bool_decide_unpack _). vm_compute. exact I. }
  rewrite Forall_forall in Hall. specialize (Hall _ Hl). cbn [fst snd] in Hall.
  rewrite Forall_forall in Hall. destruct (Hall _ Hext) as [Heq|Hok].
  - contradiction.
  - exact Hok.
Qed.

Lemma dotHpp_append (l : string) : dotHpp (String "." (l +:+ "hpp")) = true.
Proof.
  unfold dotHpp.
  change (String "." (l +:+ "hpp")) with (String "." l +:+ "hpp").
  rewrite length_append.
  replace (String.length (String "." l) + String.length "hpp" - 3)%nat
    with (String.length (String "." l)) by (simpl; lia).
  by rewrite sliceFrom_append.
Qed.

(** No entry of the table has a dot first and ["hpp"] last. *)
Lemma langExts_no_dotHpp (lang : string) (exts : list string) (ext : string) :
  (lang, exts) ∈ map_to_list langExts -> ext ∈ exts -> dotHpp ext = false.
Proof.
  intros Hl Hext. apply (elem_of_perm _ _ _ langExts_entries) in Hl.
  match type of Hl with
  | _ ∈ ?entries =>
      assert (Forall (fun kv => Forall (fun e => dotHpp e = false) kv.2) entries)
        as Hall
  end.
  { apply (bool_decide_unpack _). vm_compute. exact I. }
  rewrite Forall_forall in Hall. specialize (Hall _ Hl).
  rewrite Forall_forall in Hall. exact (Hall _ Hext).
Qed.

(** A file with an ASCII name that ends with ["hpp"] is looked up to no
    language. *)
Lemma langOf_hpp (name : string) :
  isASCII name = true -> langOf (file (name +:+ "hpp")) = EmptyString.
Proof.
  intros Hascii. unfold langOf, file. cbn [Name]. rewrite Ext_hpp.
  pose proof (ExtLoop_ascii name (String.length name) Hascii) as He.
  fold (Ext name) in He.
  destruct (ExtLoop_dot name (String.length name)) as [Hnil|[r Hr]];
    fold (Ext name) in *.
  - rewrite Hnil. vm_compute. reflexivity.
  - rewrite Hr in He |- *.
    assert (isASCII (String "." r +:+ "hpp") = true) as Hx.
    { unfold isASCII in *. by rewrite allBytes_append, He. }
    unfold getLangByExt. rewrite ToLower_ascii_idem by exact Hx.
    rewrite ToLower_ascii by exact Hx. rewrite mapBytes_append.
    change (mapBytes lowerByte (String "." r) +:+ mapBytes lowerByte "hpp")
      with (String "." (mapBytes lowerByte r +:+ "hpp")).
    destruct (rangeLangExtsLoop_spec (map_to_list langExts)
                (String "." (mapBytes lowerByte r +:+ "hpp")))
      as [(exts & Hin & Hext)|[Hnone _]]; [|exact Hnone].
    pose proof (langExts_no_dotHpp _ _ _ Hin Hext) as Hno.
    rewrite dotHpp_append in Hno. discriminate Hno.
Qed.

(** C1, on the code: a directory of one regular file whose name ends with
    an extension of [langExts] is detected as the language that lists the
    extension, for every entry of the table but ["hpp"]; the entry ["hpp"]
    of ["c++"] has no leading dot, and a file whose name ends with ["hpp"]
    is detected as no language: neither one named like [vector.hpp], nor
    any one with an ASCII name. *)
Theorem DetectDirLang_single_file (dir name : string) :
  (forall lang exts ext,
     langExts !! lang = Some exts -> ext ∈ exts -> ext <> "hpp" ->
     ReadDir dir = ([file (name +:+ ext)], None) ->
     DetectDirLang dir = (lang, None)) /\
  (exists exts, langExts !! "c++" = Some exts /\ "hpp" ∈ exts) /\
  (ReadDir dir = ([file ((name +:+ ".") +:+ "hpp")], None) ->
   DetectDirLang dir = (EmptyString, Some (errors_New noLangMessage))) /\
  (isASCII name = true ->
   ReadDir dir = ([file (name +:+ "hpp")], None) ->
   DetectDirLang dir = (EmptyString, Some (errors_New noLangMessage))).
Proof.
  split_and!.
  - intros lang exts ext Hl%elem_of_map_to_list Hext Hhpp Hread.
    destruct (langExts_dotted lang exts ext Hl Hext Hhpp) as (Hd & Hne & Hlang).
    rewrite <- Hlang, <- (langOf_file name ext Hd).
    apply DetectDirLang_one_counted; [exact Hread|].
    rewrite counted_file, (langOf_file name ext Hd), Hlang.
    apply length_pos_nonempty, Hne.
  - eexists. split; [vm_compute; reflexivity|].
    do 4 apply list_elem_of_further. apply list_elem_of_here.
  - intros Hread. apply (DetectDirLang_one_skipped dir _ Hread).
    rewrite append_assoc.
    rewrite counted_file, (langOf_file name ".hpp" eq_refl).
    vm_compute. reflexivity.
  - intros Hascii Hread. apply (DetectDirLang_one_skipped dir _ Hread).
    rewrite counted_file, (langOf_hpp name Hascii). reflexivity.
Qed.

End SingleFile.

Lemma DetectDirLang_single_file_witness :
  @DetectDirLang disk caseless listOrder "scripts" = ("perl", None) /\
  @DetectDirLang disk caseless listOrder "include"
  = (EmptyString, Some (errors_New noLangMessage)).
Proof.
  split.
  - apply (proj1 (@DetectDirLang_single_file disk caseless listOrder
                    listOrder_ok "scripts" "run")
             "perl" [".perl"; ".prl"; ".pl"] ".pl").
    + vm_compute. reflexivity.
    + do 2 apply list_elem_of_further. apply list_elem_of_here.
    + discriminate.
    + reflexivity.
  - apply (proj1 (proj2 (proj2 (@DetectDirLang_single_file disk caseless listOrder
                                  listOrder_ok "include" "vector")))).
    reflexivity.
Defined.

(** ** The names of the catalog *)

Section Names.

Lemma langs_langExts_dom : dom langs = dom langExts.
Proof. apply (bool_decide_unpack _). vm_compute. exact I. Qed.

Lemma langIsSupported_lookup (lang : string) :
  langIsSupported lang = true <-> is_Some (langs !! lang).
Proof.
  unfold langIsSupported. destruct (langs !! lang) as [rules|].
  - split; [by eexists | reflexivity].
  - split; [discriminate | by intros [? ?]].
Qed.

Lemma langIsSupported_langExts (lang : string) :
  langIsSupported lang = true <-> is_Some (langExts !! lang).
Proof.
  rewrite langIsSupported_lookup, <- !elem_of_dom.
  by rewrite langs_langExts_dom.
Qed.

Lemma Langs_supported (order : list (string * list block)) (lang : string) :
  rangeOf langs order -> lang ∈ Langs order <-> langIsSupported lang = true.
Proof.
  intros Hrange. unfold rangeOf in Hrange.
  rewrite Langs_keys, langIsSupported_lookup, Hrange. split.
  - intros [[l rules] [-> Hin]]%list_elem_of_fmap.
    exists rules. by apply elem_of_map_to_list.
  - intros [rules Hl]. apply list_elem_of_fmap. exists (lang, rules).
    split; [reflexivity | by apply elem_of_map_to_list].
Qed.

(** X1: whatever the order in which [langs] is walked, [Langs] returns the
    eleven names of the catalog, each once, and a name is returned exactly
    when [langIsSupported] holds of it. *)
Theorem Langs_enumerates (order : list (string * list block)) :
  rangeOf langs order ->
  Langs order ≡ₚ ["c#"; "c++"; "go"; "java"; "javascript"; "perl"; "python";
                  "php"; "ruby"; "rust"; "swift"] /\
  NoDup (Langs order) /\
  length (Langs order) = 11%nat /\
  (forall lang, lang ∈ Langs order <-> langIsSupported lang = true).
Proof.
  intros Hrange. unfold rangeOf in Hrange. rewrite Langs_keys.
  assert (order.*1 ≡ₚ ["c#"; "c++"; "go"; "java"; "javascript"; "perl";
                       "python"; "php"; "ruby"; "rust"; "swift"]) as Hp.
  { rewrite Hrange.
    destruct langs_entries as (go & js & perl & python & php & ruby & Hp & _).
    rewrite Hp. reflexivity. }
  split_and!.
  - exact Hp.
  - rewrite Hrange. apply NoDup_fst_map_to_list.
  - by rewrite Hp.
  - intros lang. rewrite <- Langs_keys. by apply Langs_supported.
Qed.

End Names.

Lemma Langs_enumerates_witness :
  Langs (reverse (map_to_list langs))
  ≡ₚ ["c#"; "c++"; "go"; "java"; "javascript"; "perl"; "python";
      "php"; "ruby"; "rust"; "swift"] /\
  NoDup (Langs (reverse (map_to_list langs))) /\
  length (Langs (reverse (map_to_list langs))) = 11%nat /\
  (forall lang, lang ∈ Langs (reverse (map_to_list langs))
                <-> langIsSupported lang = true).
Proof.
  apply (Langs_enumerates (reverse (map_to_list langs))).
  unfold rangeOf. apply reverse_Permutation.
Defined.

(** ** What the lookup of an extension returns *)

Section LookupSpec.

Context {U : Unicode}.

Lemma langExts_no_empty_key : langExts !! EmptyString = None.
Proof. vm_compute. reflexivity. Qed.

Lemma rangeOf_lookup {V} (m : gmap string V) (order : list (string * V))
  (k : string) (v : V) :
  rangeOf m order -> (k, v) ∈ order <-> m !! k = Some v.
Proof.
  unfold rangeOf. intros Hp. rewrite <- elem_of_map_to_list. split.
  - by apply elem_of_perm.
  - apply elem_of_perm. by symmetry.
Qed.

(** X2: [getLangByExt], in whatever order it walks [langExts], returns a
    name that is not empty exactly when the list of that name holds the
    lower-cased extension, returns the empty string exactly when no list
    holds it, and so returns nothing but the empty string or a language
    that [langIsSupported] accepts. *)
Theorem getLangByExt_spec (order : list (string * list string)) (ext : string) :
  rangeOf langExts order ->
  (forall lang,
     lang <> EmptyString ->
     getLangByExt order ext = lang <->
     exists exts, langExts !! lang = Some exts /\ ToLower ext ∈ exts) /\
  (getLangByExt order ext = EmptyString <->
   forall lang exts, langExts !! lang = Some exts -> ToLower ext ∉ exts) /\
  (getLangByExt order ext = EmptyString
   \/ langIsSupported (getLangByExt order ext) = true).
Proof.
  intros Hrange. unfold getLangByExt.
  assert (disjointExts order) as Hdis.
  { eapply disjointExts_perm; [symmetry; exact Hrange | apply langExts_disjoint]. }
  pose proof (rangeLangExtsLoop_spec order (ToLower ext)) as Hspec.
  split_and!.
  - intros lang Hne. split.
    + intros Hres. destruct Hspec as [(exts & Hin & Hext)|[Hnone _]].
      * exists exts. rewrite Hres in Hin.
        split; [by apply (rangeOf_lookup _ _ _ _ Hrange) | exact Hext].
      * rewrite Hres in Hnone. contradiction.
    + intros (exts & Hl & Hext).
      apply (rangeLangExtsLoop_owner order lang exts); [exact Hdis| |exact Hext].
      by apply (rangeOf_lookup _ _ _ _ Hrange).
  - split.
    + intros Hres lang exts Hl Hext.
      assert (rangeLangExtsLoop order (ToLower ext) = lang) as Hlang.
      { apply (rangeLangExtsLoop_owner order lang exts); [exact Hdis| |exact Hext].
        by apply (rangeOf_lookup _ _ _ _ Hrange). }
      rewrite Hres in Hlang. subst lang.
      rewrite langExts_no_empty_key in Hl. discriminate Hl.
    + intros Hall. destruct Hspec as [(exts & Hin & Hext)|[Hnone _]]; [|exact Hnone].
      apply (rangeOf_lookup _ _ _ _ Hrange) in Hin.
      destruct (Hall _ _ Hin Hext).
  - destruct Hspec as [(exts & Hin & Hext)|[Hnone _]]; [right | by left].
    apply langIsSupported_langExts. exists exts.
    by apply (rangeOf_lookup _ _ _ _ Hrange).
Qed.

End LookupSpec.

Lemma getLangByExt_spec_witness :
  (@getLangByExt caseless (reverse (map_to_list langExts)) ".Cpp" = "c++" <->
   exists exts, langExts !! "c++" = Some exts /\ @ToLower caseless ".Cpp" ∈ exts) /\
  (@getLangByExt caseless (reverse (map_to_list langExts)) ".txt" = EmptyString <->
   forall lang exts, langExts !! lang = Some exts ->
                     @ToLower caseless ".txt" ∉ exts).
Proof.
  assert (rangeOf langExts (reverse (map_to_list langExts))) as Hrange
    by (unfold rangeOf; apply reverse_Permutation).
  split.
  - apply (proj1 (@getLangByExt_spec caseless _ ".Cpp" Hrange) "c++").
    discriminate.
  - apply (proj1 (proj2 (@getLangByExt_spec caseless _ ".txt" Hrange))).
Defined.

(** ** What [DetectDirLang] returns *)

Section Outcome.

Context {FS : FileSystem} {U : Unicode} {O : MapOrder} {OK : MapOrderOK}.

Lemma langOf_supported (f : FileInfo) :
  langOf f <> EmptyString -> langIsSupported (langOf f) = true.
Proof.
  unfold langOf, getLangByExt. intros Hne.
  destruct (rangeLangExtsLoop_spec (map_to_list langExts)
              (ToLower (ToLower (Ext (Name f)))))
    as [(exts & Hin & _)|[Hnone _]]; [|contradiction].
  apply langIsSupported_langExts. exists exts. by apply elem_of_map_to_list.
Qed.

Lemma langOf_rangeOf (f : FileInfo) (order : list (string * list string)) :
  rangeOf langExts order ->
  getLangByExt order (ToLower (Ext (Name f))) = langOf f.
Proof. intros Hrange. unfold langOf. by apply getLangByExt_rangeOf. Qed.

(** A key of the tally was there before the loop or is the language of a
    counted entry. *)
Lemma rangeFiles_key (fs : list FileInfo) (i : nat) (m : gmap string Z)
  (k : string) :
  is_Some (rangeFiles i fs m !! k) ->
  is_Some (m !! k) \/ exists f, f ∈ fs /\ counted f = true /\ langOf f = k.
Proof.
  revert i m. induction fs as [|f fs IH]; intros i m; [by left|].
  rewrite rangeFiles_cons. intros [Hm|(f' & Hin & Hc & Hl)]%IH.
  - destruct (counted f) eqn:Hc; [|by left].
    unfold incr in Hm. destruct (decide (langOf f = k)) as [Heq|Hne].
    + right. exists f. split_and!; [left | exact Hc | exact Heq].
    + left. by rewrite lookup_insert_ne in Hm.
  - right. exists f'. split_and!; [by right | exact Hc | exact Hl].
Qed.

Lemma counted_true (f : FileInfo) :
  counted f = true -> IsDir f = false /\ langOf f <> EmptyString.
Proof.
  intros Hc. split; [|by apply counted_langOf].
  unfold counted in Hc. by destruct (IsDir f).
Qed.

(** A language returned with no error is that of a counted entry. *)
Lemma DetectDirLang_voter (dir lang : string) :
  DetectDirLang dir = (lang, None) ->
  (ReadDir dir).2 = None /\
  exists f, f ∈ (ReadDir dir).1 /\ counted f = true /\ langOf f = lang.
Proof.
  rewrite DetectDirLang_unfold.
  destruct (ReadDir dir) as [fs [e|]]; cbn [fst snd]; [discriminate|].
  set (m := rangeFiles 0 fs ∅). cbv zeta.
  destruct (Nat.eqb _ _); [discriminate|]. unfold rangeTally.
  destruct (foldl_pick_spec (rangeLangsMap m) (EmptyString, 0))
    as [[-> _]|(l1 & k & v & l2 & Horder & -> & _)]; cbn [fst snd].
  - cbn. discriminate.
  - destruct (Nat.ltb _ _); [|discriminate]. intros [= <-].
    split; [reflexivity|].
    assert (m !! k = Some v) as Hk.
    { apply (rangeOf_lookup _ _ _ _ (rangeLangsMap_ok m)).
      rewrite Horder. apply elem_of_app. right. left. }
    destruct (rangeFiles_key fs 0 ∅ k) as [[? Hempty]|Hf].
    + by eexists.
    + by rewrite lookup_empty in Hempty.
    + exact Hf.
Qed.

(** X3: a language that [DetectDirLang] returns is one that
    [langIsSupported] accepts and that [Langs] lists, and it is the
    language to which the extension of some entry of the listing that is
    not a directory is looked up. *)
Theorem DetectDirLang_returns_supported (dir lang : string) :
  DetectDirLang dir = (lang, None) ->
  langIsSupported lang = true /\
  (forall order, rangeOf langs order -> lang ∈ Langs order) /\
  exists f,
    f ∈ (ReadDir dir).1 /\ IsDir f = false /\
    forall order, rangeOf langExts order ->
                  getLangByExt order (ToLower (Ext (Name f))) = lang.
Proof.
  intros [_ (f & Hin & Hc & Hl)]%DetectDirLang_voter.
  destruct (counted_true f Hc) as [Hdir Hne].
  assert (langIsSupported lang = true) as Hs.
  { rewrite <- Hl. by apply langOf_supported. }
  split; [exact Hs|]. split.
  - intros order Hrange. by apply Langs_supported.
  - exists f. split_and!; [exact Hin | exact Hdir |].
    intros order Hrange. by rewrite langOf_rangeOf.
Qed.

(** X4: [DetectDirLang] returns either a name that is not empty and no
    error, or the empty name and an error; and, the listing being a slice
    (of at most [MaxInt] entries), it returns no error exactly when the
    listing succeeded and holds an entry that is not a directory and whose
    extension is looked up to a language. *)
Theorem DetectDirLang_outcome (dir : string) :
  sliceLen (ReadDir dir).1 ->
  ((DetectDirLang dir).2 = None -> (DetectDirLang dir).1 <> EmptyString) /\
  ((DetectDirLang dir).2 <> None -> (DetectDirLang dir).1 = EmptyString) /\
  ((DetectDirLang dir).2 = None <->
   (ReadDir dir).2 = None /\
   exists f, f ∈ (ReadDir dir).1 /\ IsDir f = false /\ langOf f <> EmptyString).
Proof.
  intros Hlen.
  destruct (DetectDirLang dir) as [lang err] eqn:Hres. cbn [fst snd].
  split_and!.
  - intros ->. destruct (DetectDirLang_voter dir lang Hres)
      as [_ (f & _ & Hc & <-)].
    by apply counted_langOf.
  - intros Herr. rewrite DetectDirLang_unfold in Hres. cbv zeta in Hres.
    destruct (ReadDir dir).2; [by injection Hres as <- _|].
    destruct (Nat.eqb _ _); [by injection Hres as <- _|].
    destruct (Nat.ltb _ _); [|by injection Hres as <- _].
    injection Hres as _ <-. contradiction.
  - split.
    + intros ->. destruct (DetectDirLang_voter dir lang Hres)
        as [Hok (f & Hin & Hc & _)].
      split; [exact Hok|]. exists f.
      destruct (counted_true f Hc) as [Hdir Hne]. done.
    + intros [Hok (f & Hin & Hdir & Hne)].
      destruct (ReadDir dir) as [fs err'] eqn:Hread. cbn [fst snd] in *.
      subst err'.
      assert (counted f = true) as Hc.
      { unfold counted. rewrite Hdir. cbn [negb andb].
        by apply length_pos_nonempty. }
      destruct (DetectDirLang_tallied dir fs Hread Hlen
                  (tally_nonempty fs f Hlen Hin Hc))
        as (l1 & k & v & l2 & _ & Hres' & _).
      rewrite Hres' in Hres. by injection Hres as _ <-.
Qed.

End Outcome.

Lemma DetectDirLang_returns_supported_witness :
  langIsSupported "go" = true /\
  (forall order, rangeOf langs order -> "go" ∈ Langs order) /\
  exists f,
    f ∈ project /\ IsDir f = false /\
    forall order, rangeOf langExts order ->
                  @getLangByExt caseless order (@ToLower caseless (Ext (Name f)))
                  = "go".
Proof.
  apply (@DetectDirLang_returns_supported disk caseless listOrder listOrder_ok
           "project" "go").
  vm_compute. reflexivity.
Defined.

Lemma DetectDirLang_outcome_witness :
  ((@DetectDirLang disk caseless listOrder "project").2 = None ->
   (@DetectDirLang disk caseless listOrder "project").1 <> EmptyString) /\
  ((@DetectDirLang disk caseless listOrder "project").2 <> None ->
   (@DetectDirLang disk caseless listOrder "project").1 = EmptyString) /\
  ((@DetectDirLang disk caseless listOrder "project").2 = None <->
   (@ReadDir disk "project").2 = None /\
   exists f, f ∈ (@ReadDir disk "project").1 /\ IsDir f = false /\
             @langOf caseless f <> EmptyString).
Proof.
  apply (@DetectDirLang_outcome disk caseless listOrder listOrder_ok "project").
  unfold sliceLen. vm_compute. discriminate.
Defined.

(** ** The tally and the votes *)

Section Tally.

Context {U : Unicode} {O : MapOrder} {OK : MapOrderOK}.

Lemma sliceLen_perm {A} (l l' : list A) : l' ≡ₚ l -> sliceLen l -> sliceLen l'.
Proof. unfold sliceLen. intros Hp. by rewrite Hp. Qed.

(** X5: after the first loop, on a listing that is a slice (of at most
    [MaxInt] entries), the tally holds a language exactly when some entry
    is counted for it, with the number of these entries as its count; a
    count lies between 1 and the length of the listing; and the tally is
    the same for every ordering of the listing. *)
Theorem tally_counts (fs : list FileInfo) :
  sliceLen fs ->
  (forall l v,
     rangeFiles 0 fs ∅ !! l = Some v <->
     v = Z.of_nat (votes l fs) /\ (0 < votes l fs)%nat) /\
  (forall l v,
     rangeFiles 0 fs ∅ !! l = Some v -> 1 <= v <= Z.of_nat (length fs)) /\
  (forall fs', fs' ≡ₚ fs -> rangeFiles 0 fs' ∅ = rangeFiles 0 fs ∅).
Proof.
  intros Hlen.
  assert (forall l v,
            rangeFiles 0 fs ∅ !! l = Some v <->
            v = Z.of_nat (votes l fs) /\ (0 < votes l fs)%nat) as Hiff.
  { intros l v. rewrite tally_lookup by exact Hlen. case_decide as Hz.
    - split; [discriminate | lia].
    - split; [intros [= <-]; lia | by intros [-> _]]. }
  split_and!.
  - exact Hiff.
  - intros l v [-> Hpos]%Hiff. pose proof (votes_le l fs). lia.
  - intros fs' Hp. apply map_eq. intros l.
    rewrite !tally_lookup by (exact Hlen || by eapply sliceLen_perm).
    by rewrite (votes_perm l fs' fs Hp).
Qed.

Lemma pick_ge (best kv : string * Z) :
  best.2 <= kv.2 -> pick best kv = (kv.1, kv.2).
Proof.
  intros Hle. unfold pick. by rewrite Z.geb_leb, (proj2 (Z.leb_le _ _) Hle).
Qed.

Lemma foldl_pick_le (kvs : list (string * Z)) (best : string * Z) (b : Z) :
  best.2 <= b -> Forall (fun kv => kv.2 <= b) kvs -> (foldl pick best kvs).2 <= b.
Proof.
  revert best. induction kvs as [|kv kvs IH]; intros best Hbest Hall; [exact Hbest|].
  apply Forall_cons in Hall as [Hkv Hall]. cbn [foldl]. apply IH; [|exact Hall].
  unfold pick. destruct (kv.2 >=? best.2); [exact Hkv | exact Hbest].
Qed.

End Tally.

Section Greatest.

Context {FS : FileSystem} {U : Unicode}.

(** X6: when one language has more votes than every other, [DetectDirLang]
    returns it, in whatever order the maps are walked. *)
Theorem DetectDirLang_unique_greatest {O : MapOrder} {OK : MapOrderOK}
  (dir : string) (fs : list FileInfo) (lang : string) :
  ReadDir dir = (fs, None) -> sliceLen fs ->
  (forall l, l <> lang -> (votes l fs < votes lang fs)%nat) ->
  DetectDirLang dir = (lang, None).
Proof.
  intros Hread Hlen Hmore.
  assert (lang <> EmptyString) as Hlang.
  { intros ->. specialize (Hmore "go"). rewrite votes_empty_name in Hmore.
    assert ("go" <> EmptyString) as Hgo by discriminate.
    specialize (Hmore Hgo). lia. }
  assert (0 < votes lang fs)%nat as Hpos.
  { specialize (Hmore EmptyString (not_eq_sym Hlang)). lia. }
  assert (rangeFiles 0 fs ∅ !! lang = Some (Z.of_nat (votes lang fs))) as Hl.
  { rewrite tally_lookup by exact Hlen. case_decide; [lia | reflexivity]. }
  destruct (DetectDirLang_tallied dir fs Hread Hlen
              (lookup_Some_nonempty _ _ _ Hl))
    as (l1 & k & v & l2 & Horder & -> & Hk & Ha & Hb & _).
  f_equal. destruct (decide (k = lang)) as [Heq|Hne]; [exact Heq|exfalso].
  destruct (tally_positive fs k v Hlen Hk) as (_ & -> & _).
  specialize (Hmore k Hne).
  assert ((lang, Z.of_nat (votes lang fs)) ∈ rangeLangsMap (rangeFiles 0 fs ∅))
    as Hin by by apply (rangeOf_lookup _ _ _ _ (rangeLangsMap_ok _)).
  rewrite Horder in Hin.
  apply elem_of_app in Hin as [Hin|[Heq|Hin]%elem_of_cons].
  - apply (proj1 (Forall_forall _ _) Ha) in Hin. cbn in Hin. lia.
  - by injection Heq as <- _.
  - apply (proj1 (Forall_forall _ _) Hb) in Hin. cbn in Hin. lia.
Qed.

Lemma lastOrder_ok (lang : string) : @MapOrderOK (lastOrder lang).
Proof.
  split.
  - intros i. unfold rangeOf. reflexivity.
  - intros m. unfold rangeOf. cbn [rangeLangsMap lastOrder].
    destruct (m !! lang) as [v|] eqn:Hl; [|reflexivity].
    rewrite <- (map_to_list_delete m lang v Hl).
    rewrite Permutation_app_comm. reflexivity.
Qed.

(** X7: every language whose number of votes is the greatest is returned
    by [DetectDirLang] under some order of the walk of the tally: the one
    that visits it last. *)
Theorem DetectDirLang_any_greatest (dir : string) (fs : list FileInfo)
  (lang : string) :
  ReadDir dir = (fs, None) -> sliceLen fs ->
  (0 < votes lang fs)%nat ->
  (forall l, (votes l fs <= votes lang fs)%nat) ->
  @MapOrderOK (lastOrder lang) /\
  @DetectDirLang FS U (lastOrder lang) dir = (lang, None).
Proof.
  intros Hread Hlen Hpos Hmax. split; [apply lastOrder_ok|].
  pose proof (lastOrder_ok lang) as OK.
  set (m := @rangeFiles U (lastOrder lang) 0 fs ∅).
  assert (m !! lang = Some (Z.of_nat (votes lang fs))) as Hl.
  { unfold m. rewrite tally_lookup by exact Hlen. case_decide; [lia | reflexivity]. }
  rewrite DetectDirLang_unfold, Hread. cbn [fst snd]. fold m. cbv zeta.
  rewrite (proj2 (Nat.eqb_neq _ _)).
  2:{ apply map_size_non_empty_iff. by eapply lookup_Some_nonempty. }
  cbn [rangeLangsMap lastOrder]. rewrite Hl. unfold rangeTally.
  rewrite foldl_app. cbn [foldl].
  assert ((foldl pick (EmptyString, 0) (map_to_list (delete lang m))).2
          <= Z.of_nat (votes lang fs)) as Hle.
  { apply foldl_pick_le; [cbn; lia|]. apply Forall_forall.
    intros [k v] Hin%elem_of_map_to_list. cbn [snd].
    apply lookup_delete_Some in Hin as [_ Hk].
    destruct (tally_positive fs k v Hlen Hk) as (_ & -> & _).
    specialize (Hmax k). lia. }
  assert (pick (foldl pick (EmptyString, 0) (map_to_list (delete lang m)))
               (lang, Z.of_nat (votes lang fs))
          = (lang, Z.of_nat (votes lang fs))) as ->.
  { by rewrite pick_ge. }
  cbn [fst]. rewrite length_pos_nonempty; [reflexivity|].
  intros ->. rewrite votes_empty_name in Hpos. lia.
Qed.

End Greatest.

Lemma tally_counts_witness :
  (forall l v,
     @rangeFiles caseless listOrder 0 project ∅ !! l = Some v <->
     v = Z.of_nat (@votes caseless l project) /\ (0 < @votes caseless l project)%nat) /\
  (forall l v,
     @rangeFiles caseless listOrder 0 project ∅ !! l = Some v ->
     1 <= v <= Z.of_nat (length project)) /\
  (forall fs', fs' ≡ₚ project ->
               @rangeFiles caseless listOrder 0 fs' ∅
               = @rangeFiles caseless listOrder 0 project ∅).
Proof.
  apply (@tally_counts caseless listOrder listOrder_ok project).
  unfold sliceLen. vm_compute. discriminate.
Defined.

Lemma DetectDirLang_unique_greatest_witness :
  @DetectDirLang disk caseless reverseOrder "project" = ("go", None).
Proof.
  apply (@DetectDirLang_unique_greatest disk caseless reverseOrder
           reverseOrder_ok "project" project "go").
  - reflexivity.
  - unfold sliceLen. vm_compute. discriminate.
  - intros l Hne.
    assert (project ≡ₚ [file ("block" +:+ ".go"); file ("lang" +:+ ".go");
                        file ("main" +:+ ".go"); file ("gen" +:+ ".py");
                        file ("setup" +:+ ".py"); file ("notes" +:+ ".xyz")])
      as Hp by (unfold project; cbn [String.app String.append]; solve_Permutation).
    rewrite !(votes_perm _ _ _ Hp), !votes_go_py_xyz.
    rewrite (decide_True (P := "go" = "go")) by reflexivity.
    rewrite (decide_False (P := l = "go")) by exact Hne.
    case_decide; lia.
Defined.

Lemma DetectDirLang_any_greatest_witness :
  @DetectDirLang disk caseless (lastOrder "go") "mixed" = ("go", None) /\
  @DetectDirLang disk caseless (lastOrder "python") "mixed" = ("python", None).
Proof.
  assert (sliceLen [file "a.go"; file "b.py"]) as Hlen
    by (unfold sliceLen; vm_compute; discriminate).
  assert (forall l, @votes caseless l [file "a.go"; file "b.py"]
                    = ((if decide (l = "go") then 1 else 0)
                       + (if decide (l = "python") then 1 else 0))%nat) as Hvotes.
  { intros l. rewrite !votes_cons.
    assert (@counted caseless (file "a.go") = true) as -> by (vm_compute; reflexivity).
    assert (@counted caseless (file "b.py") = true) as -> by (vm_compute; reflexivity).
    assert (@langOf caseless (file "a.go") = "go") as -> by (vm_compute; reflexivity).
    assert (@langOf caseless (file "b.py") = "python") as -> by (vm_compute; reflexivity).
    unfold votes. rewrite filter_nil. cbn [length].
    repeat case_decide; destruct_and?; simplify_eq; try reflexivity;
      exfalso; tauto. }
  split.
  - apply (@DetectDirLang_any_greatest disk caseless "mixed"
             [file "a.go"; file "b.py"] "go"); [reflexivity | exact Hlen | |].
    + rewrite Hvotes. repeat case_decide; simplify_eq; lia.
    + intros l. rewrite !Hvotes. repeat case_decide; simplify_eq; lia.
  - apply (@DetectDirLang_any_greatest disk caseless "mixed"
             [file "a.go"; file "b.py"] "python"); [reflexivity | exact Hlen | |].
    + rewrite Hvotes. repeat case_decide; simplify_eq; lia.
    + intros l. rewrite !Hvotes. repeat case_decide; simplify_eq; lia.
Defined.

(** ** Case of the extension, names without a dot *)

Section Names2.

Context {FS : FileSystem} {U : Unicode} {O : MapOrder} {OK : MapOrderOK}.

Lemma plainByte_lowerByte (c : ascii) : plainByte (lowerByte c) = plainByte c.
Proof. destruct c as [[] [] [] [] [] [] [] []]; reflexivity. Qed.

Lemma allBytes_plain_lowered (s : string) :
  allBytes plainByte (mapBytes lowerByte s) = allBytes plainByte s.
Proof.
  induction s as [|c s IH]; [reflexivity|].
  cbn [mapBytes allBytes]. by rewrite IH, plainByte_lowerByte.
Qed.

Lemma dotted_lowered (e : string) : dotted (mapBytes lowerByte e) = dotted e.
Proof.
  destruct e as [|c rest]; [reflexivity|]. cbn [mapBytes].
  destruct (Ascii.eqb_spec c "."%char) as [->|Hne].
  - change (lowerByte ".") with "."%char. cbn [dotted].
    apply allBytes_plain_lowered.
  - destruct c as [[] [] [] [] [] [] [] []]; try reflexivity; congruence.
Qed.

(** X8: the case of an extension does not matter to detection: a directory
    of one regular file whose name ends with an ASCII string that
    lower-cases to an extension of the table (other than ["hpp"]) is
    detected as the language listing that extension. *)
Theorem DetectDirLang_any_case (dir name e lang : string) (exts : list string) :
  langExts !! lang = Some exts ->
  isASCII e = true -> ToLower e ∈ exts -> ToLower e <> "hpp" ->
  ReadDir dir = ([file (name +:+ e)], None) ->
  DetectDirLang dir = (lang, None).
Proof.
  intros Hl%elem_of_map_to_list Hascii Hext Hhpp Hread.
  destruct (langExts_dotted lang exts (ToLower e) Hl Hext Hhpp)
    as (Hd & Hne & Hlang).
  rewrite (ToLower_ascii e Hascii), dotted_lowered in Hd.
  assert (langOf (file (name +:+ e)) = lang) as Hf.
  { rewrite (langOf_file name e Hd). unfold getLangByExt in *.
    by rewrite !(ToLower_ascii_idem e Hascii) in *. }
  rewrite <- Hf. apply DetectDirLang_one_counted; [exact Hread|].
  rewrite counted_file, Hf. by apply length_pos_nonempty.
Qed.

Lemma ExtLoop_noDot (s : string) (n : nat) :
  noDot s = true -> ExtLoop s n = EmptyString.
Proof.
  intros Hs. induction n as [|i IH]; [reflexivity|]. cbn [ExtLoop].
  destruct (String.get i s) as [c|] eqn:Hget; [|reflexivity].
  destruct (IsPathSeparator c); [reflexivity|].
  pose proof (allBytes_get _ _ _ _ Hs Hget) as Hc.
  apply negb_true_iff in Hc. rewrite Hc. exact IH.
Qed.

(** X9: an entry whose name has no dot has the empty extension and is
    never tallied; on a listing of directories and of such entries only,
    [DetectDirLang] returns the error of no supported language. *)
Theorem DetectDirLang_no_dot (dir : string) (fs : list FileInfo) :
  ReadDir dir = (fs, None) ->
  Forall (fun f => IsDir f = true \/ noDot (Name f) = true) fs ->
  Forall (fun f => IsDir f = true \/ Ext (Name f) = EmptyString) fs /\
  rangeFiles 0 fs ∅ = ∅ /\
  DetectDirLang dir = (EmptyString, Some (errors_New noLangMessage)).
Proof.
  intros Hread Hall.
  assert (Forall (fun f => counted f = false) fs) as Hskip.
  { eapply Forall_impl; [exact Hall|]. intros f [Hdir|Hdot].
    - unfold counted. by rewrite Hdir.
    - apply counted_false_iff. right. unfold langOf, Ext.
      rewrite (ExtLoop_noDot _ _ Hdot). vm_compute. reflexivity. }
  split_and!.
  - eapply Forall_impl; [exact Hall|]. intros f [Hdir|Hdot]; [by left|].
    right. by apply ExtLoop_noDot.
  - by apply tally_empty.
  - rewrite DetectDirLang_unfold, Hread. cbn [fst snd].
    by rewrite tally_empty.
Qed.


End Names2.

Lemma DetectDirLang_any_case_witness :
  @DetectDirLang attic caseless listOrder "upper" = ("go", None).
Proof.
  apply (@DetectDirLang_any_case attic caseless listOrder listOrder_ok
           "upper" "MAIN" ".GO" "go" [".go"]).
  - vm_compute. reflexivity.
  - reflexivity.
  - vm_compute. apply list_elem_of_here.
  - vm_compute. discriminate.
  - reflexivity.
Defined.

Lemma DetectDirLang_no_dot_witness :
  @rangeFiles caseless listOrder 0
    [mkFileInfo "img" true; file "LICENSE"; file "Makefile"] ∅ = ∅ /\
  @DetectDirLang attic caseless listOrder "plain"
  = (EmptyString, Some (errors_New noLangMessage)).
Proof.
  apply (@DetectDirLang_no_dot attic caseless listOrder listOrder_ok "plain"
           [mkFileInfo "img" true; file "LICENSE"; file "Makefile"]).
  - reflexivity.
  - apply Forall_cons_2; [left; reflexivity|].
    apply Forall_cons_2; [right; reflexivity|].
    apply Forall_cons_2; [right; reflexivity|].
    apply Forall_nil_2.
Defined.


(** ** The rules of the catalog *)

Section Rules.

Lemma shadowFree_spec (rules : list block) :
  shadowFree rules = true ->
  forall i j bi bj,
    rules !! i = Some bi -> rules !! j = Some bj -> (i < j)%nat ->
    String.prefix (Begin bi) (Begin bj) = false.
Proof.
  induction rules as [|b rest IH]; intros Hfree i j bi bj Hi Hj Hlt; [done|].
  cbn [shadowFree] in Hfree. apply andb_true_iff in Hfree as [Hb Hrest].
  destruct j as [|j]; [lia|]. cbn in Hj.
  destruct i as [|i].
  - injection Hi as <-. rewrite forallb_forall in Hb.
    apply negb_true_iff, Hb, list_elem_of_In.
    by eapply list_elem_of_lookup_2.
  - cbn in Hi. apply (IH Hrest i j); [exact Hi | exact Hj | lia].
Qed.

(** X11: in every rule list of [langs], each rule has an opening delimiter
    that is not empty and the closing delimiter and escape that its kind
    asks for ([ruleShape]); the first rule is the string between double
    quotes escaped by a backslash; and no rule opens with a prefix of the
    opening delimiter of a rule further down the list, so that the rules
    can be tried in order (in ["javascript"], the comments before the
    regular expression opened by one slash). *)
Theorem langs_rules_shape (lang : string) (rules : list block) :
  langs !! lang = Some rules ->
  Forall (fun b => ruleShape b = true) rules /\
  head rules = Some (mkBlock blockTypeString dquote dquote backslash) /\
  (forall i j bi bj,
     rules !! i = Some bi -> rules !! j = Some bj -> (i < j)%nat ->
     String.prefix (Begin bi) (Begin bj) = false).
Proof.
  intros Hl%elem_of_map_to_list.
  assert (Forall (fun kv : string * list block =>
            forallb ruleShape kv.2 = true /\
            head kv.2 = Some (mkBlock blockTypeString dquote dquote backslash) /\
            shadowFree kv.2 = true) (map_to_list langs)) as Hall.
  { vm_compute. repeat (apply Forall_cons_2; [by split_and!|]). apply Forall_nil_2. }
  rewrite Forall_forall in Hall. destruct (Hall _ Hl) as (Hshape & Hhead & Hfree).
  cbn [snd] in *. split_and!.
  - apply Forall_forall. intros b Hb%list_elem_of_In.
    rewrite forallb_forall in Hshape. by apply Hshape.
  - exact Hhead.
  - by apply shadowFree_spec.
Qed.

End Rules.

Lemma langs_rules_shape_witness :
  exists rules,
    langs !! "javascript" = Some rules /\
    Forall (fun b => ruleShape b = true) rules /\
    (forall i j bi bj,
       rules !! i = Some bi -> rules !! j = Some bj -> (i < j)%nat ->
       String.prefix (Begin bi) (Begin bj) = false).
Proof.
  eexists. split; [vm_compute; reflexivity|].
  match goal with
  | |- Forall _ ?rules /\ _ =>
      destruct (langs_rules_shape "javascript" rules) as (Hs & _ & Hf)
  end.
  - vm_compute. reflexivity.
  - split; [exact Hs | exact Hf].
Defined.

(** ** The keys and the extensions of the tables *)

Section Tables.

Context {U : Unicode}.

(** X12: [langs] and [langExts] have the same keys, so that a language is
    supported exactly when it has a list of extensions; that list is not
    empty; and lower-casing changes neither a key nor an extension, which
    are all written in lower case. *)
Theorem tables_lower_case :
  dom langs = dom langExts /\
  (forall lang, langIsSupported lang = true <-> is_Some (langExts !! lang)) /\
  (forall lang exts,
     langExts !! lang = Some exts ->
     ToLower lang = lang /\ exts <> [] /\ Forall (fun e => ToLower e = e) exts).
Proof.
  split_and!.
  - apply langs_langExts_dom.
  - apply langIsSupported_langExts.
  - intros lang exts Hl%elem_of_map_to_list.
    apply (elem_of_perm _ _ _ langExts_entries) in Hl.
    match type of Hl with
    | _ ∈ ?entries =>
        assert (Forall (fun kv : string * list string =>
                  ToLower kv.1 = kv.1 /\ kv.2 <> [] /\
                  Forall (fun e => ToLower e = e) kv.2) entries) as Hall
          by (apply (bool_decide_unpack _); vm_compute; exact I)
    end.
    rewrite Forall_forall in Hall. exact (Hall _ Hl).
Qed.

End Tables.

Lemma tables_lower_case_witness :
  exists exts,
    langExts !! "perl" = Some exts /\
    @ToLower caseless "perl" = "perl" /\ exts <> [] /\
    Forall (fun e => @ToLower caseless e = e) exts.
Proof.
  eexists. split; [vm_compute; reflexivity|].
  apply (proj2 (proj2 (@tables_lower_case caseless))).
  vm_compute. reflexivity.
Defined.
